(** * Super-Cart: product ranking, cart state and cart persistence

    A shallow embedding of
    - [backend/controllers/ProductController.js] ([getTopProducts] and the
      handlers that write products) with the routes in front of them,
    - the cart context of the frontend ([addToCart], [removeFromCart],
      [updateQuantity], [clearCart], [loadCart], [saveCart],
      [loadSavedCart], [deleteSavedCartById], [getSupermarketTotals]) and
      the components and pages that call it,
    - [backend/routes/CartRoutes.js] together with the Mongoose
      [CartSchema],
    - the ranking of the product context of the frontend,
    followed by the properties of the specification that concern them and
    by further properties of the code.

    Conventions of the model.  A finite JavaScript Number is carried as an
    exact integer (a price in the smallest currency unit, a quantity, a
    timestamp); the two infinities and NaN, which the ranking code produces
    from [Math.min()] and [Math.max()] without arguments, are explicit
    constructors.  Rounding of IEEE doubles is outside the model: the
    general properties of [getSupermarketTotals] say which lines of the
    cart a total is computed from, and use no law of arithmetic on the
    sums; the examples have integer amounts.  A string is the sequence of
    the bytes of its UTF-8 encoding. *)

From Stdlib Require Import ZArith Lia Ascii.
From stdpp Require Import base gmap strings list sorting fin_maps pretty.

Local Open Scope Z_scope.

(** ** JavaScript numbers and the built-ins used by the code *)

Module JS.

Inductive number : Type :=
| NaN
| NegInf
| Fin (z : Z)
| PosInf.

#[global] Instance number_eq_dec : EqDecision number.
Proof. solve_decision. Defined.

(** [a - b] *)
Definition sub (a b : number) : number :=
  match a, b with
  | NaN, _ | _, NaN => NaN
  | Fin x, Fin y => Fin (x - y)
  | PosInf, PosInf => NaN
  | NegInf, NegInf => NaN
  | PosInf, _ => PosInf
  | NegInf, _ => NegInf
  | Fin _, PosInf => NegInf
  | Fin _, NegInf => PosInf
  end.

Definition min2 (a b : number) : number :=
  match a, b with
  | NaN, _ | _, NaN => NaN
  | NegInf, _ | _, NegInf => NegInf
  | PosInf, c | c, PosInf => c
  | Fin x, Fin y => Fin (Z.min x y)
  end.

Definition max2 (a b : number) : number :=
  match a, b with
  | NaN, _ | _, NaN => NaN
  | PosInf, _ | _, PosInf => PosInf
  | NegInf, c | c, NegInf => c
  | Fin x, Fin y => Fin (Z.max x y)
  end.

(** [Math.min(...l)] and [Math.max(...l)]: with no argument they are
    [Infinity] and [-Infinity]. *)
Definition Math_min (l : list number) : number := foldr min2 PosInf l.
Definition Math_max (l : list number) : number := foldr max2 NegInf l.

(** [v > 0] *)
Definition gt0 (v : number) : bool :=
  match v with
  | PosInf => true
  | Fin z => 0 <? z
  | NaN | NegInf => false
  end.

(** ToBoolean on a number, and [v || d]. *)
Definition truthy (v : number) : bool :=
  match v with
  | NaN => false
  | Fin z => negb (z =? 0)
  | PosInf | NegInf => true
  end.

Definition or_else (v d : number) : number := if truthy v then v else d.

(** *** [Array.prototype.sort(comparefn)]

    ECMAScript requires the sort to be stable, reads a NaN returned by
    the comparator as [+0], and moves [x] behind [y] only when
    [comparefn(x, y) > 0].  For a consistent comparator the outcome does
    not depend on the algorithm of the engine; it is computed here by
    straight insertion. *)
Section sort.
Context {A : Type} (comparefn : A → A → number).

Fixpoint sort_insert (x : A) (l : list A) : list A :=
  match l with
  | [] => [x]
  | y :: l' =>
      if gt0 (comparefn x y) then y :: sort_insert x l' else x :: l
  end.

Definition Array_sort (l : list A) : list A := foldr sort_insert [] l.
End sort.

(** *** [array.slice(0, end)]

    A negative [end] counts from the end of the array. *)
Definition slice_end (len : Z) (e : number) : Z :=
  match e with
  | NaN => 0
  | NegInf => 0
  | PosInf => len
  | Fin z => if z <? 0 then Z.max (len + z) 0 else Z.min z len
  end.

Definition Array_slice0 {A} (e : number) (l : list A) : list A :=
  take (Z.to_nat (slice_end (Z.of_nat (length l)) e)) l.

(** [array.findIndex(f)]: the first index whose element satisfies [f],
    [-1] when there is none. *)
Fixpoint Array_findIndex {A} (f : A → bool) (l : list A) : Z :=
  match l with
  | [] => -1
  | x :: l' =>
      if f x then 0
      else let i := Array_findIndex f l' in if i <? 0 then -1 else i + 1
  end.

(** *** White space

    [parseInt] and [String.prototype.trim] strip the white space and the
    line terminators of ECMAScript: U+0009 to U+000D and U+0020, which are
    one byte each, and, in the UTF-8 encoding of the string, U+00A0
    (C2 A0), U+1680 (E1 9A 80), U+2000 to U+200A, U+2028, U+2029 and
    U+202F (E2 80 80 to E2 80 8A, E2 80 A8, E2 80 A9, E2 80 AF), U+205F
    (E2 81 9F), U+3000 (E3 80 80) and U+FEFF (EF BB BF). *)
Definition is_white_space (c : ascii) : bool :=
  let n := N_of_ascii c in
  ((9 <=? n) && (n <=? 13))%N || (n =? 32)%N.

Definition is_white_space_2 (c1 c2 : ascii) : bool :=
  ((N_of_ascii c1 =? 194) && (N_of_ascii c2 =? 160))%N.

Definition is_white_space_3 (c1 c2 c3 : ascii) : bool :=
  let a := N_of_ascii c1 in
  let b := N_of_ascii c2 in
  let c := N_of_ascii c3 in
  (((a =? 225) && (b =? 154) && (c =? 128))
   || ((a =? 226) && (b =? 128)
       && (((128 <=? c) && (c <=? 138)) || (c =? 168) || (c =? 169)
           || (c =? 175)))
   || ((a =? 226) && (b =? 129) && (c =? 159))
   || ((a =? 227) && (b =? 128) && (c =? 128))
   || ((a =? 239) && (b =? 187) && (c =? 191)))%N.

(** The string without the white space it starts with. *)
Fixpoint skip_white_space (s : string) : string :=
  match s with
  | String c1 s1 =>
      if is_white_space c1 then skip_white_space s1
      else
        match s1 with
        | String c2 s2 =>
            if is_white_space_2 c1 c2 then skip_white_space s2
            else
              match s2 with
              | String c3 s3 =>
                  if is_white_space_3 c1 c2 c3 then skip_white_space s3
                  else s
              | EmptyString => s
              end
        | EmptyString => s
        end
  | EmptyString => s
  end.

(** The same for a string given back to front, where the bytes of a
    character come last byte first. *)
Fixpoint skip_white_space_rev (s : string) : string :=
  match s with
  | String c1 s1 =>
      if is_white_space c1 then skip_white_space_rev s1
      else
        match s1 with
        | String c2 s2 =>
            if is_white_space_2 c2 c1 then skip_white_space_rev s2
            else
              match s2 with
              | String c3 s3 =>
                  if is_white_space_3 c3 c2 c1 then skip_white_space_rev s3
                  else s
              | EmptyString => s
              end
        | EmptyString => s
        end
  | EmptyString => s
  end.

(** *** [parseInt(string)] without a radix argument *)

Definition digit_value (radix : Z) (c : ascii) : option Z :=
  let n := Z.of_N (N_of_ascii c) in
  let v :=
    if (48 <=? n) && (n <=? 57) then Some (n - 48)
    else if (97 <=? n) && (n <=? 122) then Some (n - 87)
    else if (65 <=? n) && (n <=? 90) then Some (n - 55)
    else None in
  match v with
  | Some d => if d <? radix then Some d else None
  | None => None
  end.

(** The longest prefix of digits; [None] when it is empty. *)
Fixpoint parse_digits (radix : Z) (acc : option Z) (s : string) : option Z :=
  match s with
  | EmptyString => acc
  | String c s' =>
      match digit_value radix c with
      | Some d => parse_digits radix (Some (default 0 acc * radix + d)) s'
      | None => acc
      end
  end.

Definition strip_sign (s : string) : Z * string :=
  match s with
  | String "-" s' => (-1, s')
  | String "+" s' => (1, s')
  | _ => (1, s)
  end.

Definition strip_hex_prefix (s : string) : Z * string :=
  match s with
  | String "0" (String "x" s') => (16, s')
  | String "0" (String "X" s') => (16, s')
  | _ => (10, s)
  end.

Definition parseInt_string (s : string) : number :=
  let '(sign, s1) := strip_sign (skip_white_space s) in
  let '(radix, s2) := strip_hex_prefix s1 in
  match parse_digits radix None s2 with
  | Some n => Fin (sign * n)
  | None => NaN
  end.

(** The argument is converted with ToString first: [undefined] becomes
    the string ["undefined"]. *)
Definition parseInt (v : option string) : number :=
  parseInt_string (default "undefined" v).

(** [v || d] on an optional string: [undefined] and [""] are falsy. *)
Definition str_or_else (v : option string) (d : string) : string :=
  match v with
  | Some (String _ _ as s) => s
  | Some EmptyString | None => d
  end.

End JS.

(** ** Products and the product collection *)

(** [ProductSchema]: the fields of a product document.  [prices] maps a
    supermarket name to the price there; it is a Mongoose map in a document
    on the server and a plain object in the JSON the client receives. *)
Record Product : Type := {
  id : Z;
  name : string;
  category : string;
  prices : gmap string Z;
  unit : string;
  popularity : Z;
  rating : Z;
  ratingCount : Z;
}.

(** What the ranking code hands to [Object.values]: a plain object, or
    a native [Map]. *)
Inductive PricesObject : Type :=
| PlainObject (properties : gmap string Z)
| NativeMap (entries : gmap string Z).

(** [prices.toObject()] of a Mongoose map.  The controller calls it
    without the option [flattenMaps], and then it is a copy of the map as
    a native [Map]. *)
Definition Map_toObject (prices : gmap string Z) : PricesObject :=
  NativeMap prices.

(** [Object.values(o)]: the values of the own enumerable properties of
    [o].  The entries of a [Map] are not properties of it, so for a [Map]
    there is none. *)
Definition Object_values (o : PricesObject) : list JS.number :=
  match o with
  | PlainObject properties => (λ kv, JS.Fin kv.2) <$> map_to_list properties
  | NativeMap _ => []
  end.

(** [Object.entries(o)] of a plain object. *)
Definition Object_entries (o : gmap string Z) : list (string * Z) :=
  map_to_list o.

(** The sort arguments the controller hands to the database:
    [{ popularity: -1 }], [{ rating: -1 }] and ["name"]. *)
Inductive SortOption : Type :=
| popularity_desc
| rating_desc
| name_asc.

(** What a result sorted by a [SortOption] satisfies between an earlier
    and a later document.  Strings are compared byte by byte. *)
Definition sort_order (s : SortOption) (a b : Product) : Prop :=
  match s with
  | popularity_desc => popularity b ≤ popularity a
  | rating_desc => rating b ≤ rating a
  | name_asc => String.le (name a) (name b)
  end.

(** The database behind [Product.find().sort(s)].  The controller does
    not sort these results itself; all that is known of the answer is that
    it holds the documents of the collection, ordered by the sort key.  The
    order among documents with the same key is the database's choice. *)
Record ProductStore : Type := {
  find_sort : SortOption → list Product → list Product;
  find_sort_perm : ∀ s db, find_sort s db ≡ₚ db;
  find_sort_sorted : ∀ s db, StronglySorted (sort_order s) (find_sort s db);
}.

(** [cursor.limit(n)] of MongoDB: [0] means no limit, and a negative
    limit returns at most [|n|] documents. *)
Definition cursor_limit {A} (n : JS.number) (l : list A) : list A :=
  match n with
  | JS.Fin z => if z =? 0 then l else take (Z.to_nat (Z.abs z)) l
  | _ => l
  end.

(** ** [getTopProducts] (ProductController.js) *)

(** [req.query] *)
Record Query : Type := {
  q_criteria : option string;
  q_limit : option string;
}.

Inductive Response (A : Type) : Type :=
| Json (status : Z) (body : A)
| Message (status : Z) (message : string).
Arguments Json {A} status body.
Arguments Message {A} status message.

(** [Math.min(...Object.values(a.prices.toObject()))] and
    [Math.max(...pricesA) - Math.min(...pricesA)], as the two comparators
    of the controller compute them. *)
Definition min_price (p : Product) : JS.number :=
  JS.Math_min (Object_values (Map_toObject (prices p))).

Definition price_diff (p : Product) : JS.number :=
  let ps := Object_values (Map_toObject (prices p)) in
  JS.sub (JS.Math_max ps) (JS.Math_min ps).

(** The two comparators passed to [products.sort]. *)
Definition compare_cheapest (a b : Product) : JS.number :=
  JS.sub (min_price a) (min_price b).

Definition compare_highest_different (a b : Product) : JS.number :=
  JS.sub (price_diff b) (price_diff a).

Definition criteria_of (q : Query) : string :=
  JS.str_or_else (q_criteria q) "cheapest".

Definition limit_of (q : Query) : JS.number :=
  JS.or_else (JS.parseInt (q_limit q)) (JS.Fin 10).

(** The body of the [switch], on the documents [Product.find()] yields. *)
Definition top_products (store : ProductStore) (db : list Product)
    (criteria : string) (limit : JS.number) : list Product :=
  if decide (criteria = "cheapest") then
    JS.Array_slice0 limit (JS.Array_sort compare_cheapest db)
  else if decide (criteria = "highest different") then
    JS.Array_slice0 limit (JS.Array_sort compare_highest_different db)
  else if decide (criteria = "most selected") then
    cursor_limit limit (find_sort store popularity_desc db)
  else if decide (criteria = "highest rated") then
    cursor_limit limit (find_sort store rating_desc db)
  else
    cursor_limit limit (find_sort store name_asc db).

(** The handler.  [db] is [None] when the query to the database fails:
    the [catch] block then answers 500. *)
Definition getTopProducts (store : ProductStore) (db : option (list Product))
    (q : Query) : Response (list Product) :=
  let criteria := criteria_of q in
  let limit := limit_of q in
  match db with
  | Some products => Json 200 (top_products store products criteria limit)
  | None => Message 500 "שגיאת שרת בטעינת מוצרים מובילים"
  end.

(** ** The cart context of the frontend (CartProvider) *)

(** The [id] of a line item is compared with [===]: a number and a string
    are never equal.  Products fetched from the API carry a numeric [id];
    the items of a saved cart carry the string the [CartSchema] stores. *)
Inductive ItemId : Type :=
| NumId (n : Z)
| StrId (s : string).

#[global] Instance ItemId_eq_dec : EqDecision ItemId.
Proof. solve_decision. Defined.

(** A line item: the fields of the product that the cart reads, and
    [quantity]. *)
Record Item : Type := {
  item_id : ItemId;
  item_name : string;
  item_category : option string;
  item_prices : gmap string Z;
  quantity : Z;
}.

(** [{ ...product, quantity }] *)
Definition item_of_product (product : Product) (quantity : Z) : Item :=
  {| item_id := NumId (id product);
     item_name := name product;
     item_category := Some (category product);
     item_prices := prices product;
     quantity := quantity |}.

(** [{ ...item, quantity: newQuantity }] *)
Definition with_quantity (newQuantity : Z) (item : Item) : Item :=
  {| item_id := item_id item;
     item_name := item_name item;
     item_category := item_category item;
     item_prices := item_prices item;
     quantity := newQuantity |}.

(** A document of the [carts] collection ([CartSchema]). *)
Record StoredItem : Type := {
  s_id : string;
  s_name : string;
  s_quantity : Z;
  s_prices : gmap string Z;
}.

Record CartDoc : Type := {
  cart_oid : Z;
  cart_name : string;
  cart_items : list StoredItem;
  cart_userId : string;
  createdAt : Z;
  updatedAt : Z;
}.

(** The state held by [CartProvider]. *)
Record CartState : Type := {
  cart : list Item;
  savedCarts : list CartDoc;
  loading : bool;
  error : option string;
}.

Definition setCart (c : list Item) (st : CartState) : CartState :=
  {| cart := c; savedCarts := savedCarts st;
     loading := loading st; error := error st |}.
Definition setSavedCarts (cs : list CartDoc) (st : CartState) : CartState :=
  {| cart := cart st; savedCarts := cs;
     loading := loading st; error := error st |}.
Definition setLoading (b : bool) (st : CartState) : CartState :=
  {| cart := cart st; savedCarts := savedCarts st;
     loading := b; error := error st |}.
Definition setError (e : option string) (st : CartState) : CartState :=
  {| cart := cart st; savedCarts := savedCarts st;
     loading := loading st; error := e |}.

Definition cart_ids (c : list Item) : list ItemId := item_id <$> c.

(** [addToCart(product, _, quantity = 1)]: the caller passes the quantity,
    [None] stands for an omitted argument. *)
Definition addToCart (product : Product) (quantity_arg : option Z)
    (st : CartState) : CartState :=
  let qty := default 1 quantity_arg in
  let existingItemIndex :=
    JS.Array_findIndex
      (λ item, bool_decide (item_id item = NumId (id product))) (cart st) in
  if -1 <? existingItemIndex then
    let updatedCart :=
      alter (λ item, with_quantity (quantity item + qty) item)
        (Z.to_nat existingItemIndex) (cart st) in
    setCart updatedCart st
  else
    setCart (cart st ++ [item_of_product product qty]) st.

Definition removeFromCart (productId : ItemId) (st : CartState) : CartState :=
  setCart (filter (λ item, item_id item ≠ productId) (cart st)) st.

Definition updateQuantity (productId : ItemId) (newQuantity : Z)
    (st : CartState) : CartState :=
  if newQuantity <? 1 then st
  else
    let updatedCart :=
      (λ item, if decide (item_id item = productId)
               then with_quantity newQuantity item else item) <$> cart st in
    setCart updatedCart st.

Definition clearCart (st : CartState) : CartState := setCart [] st.

Definition loadCart (items : list Item) (st : CartState) : CartState :=
  setCart items st.

(** *** [getSupermarketTotals]

    [totals] starts as [{}]: an object without properties of its own that
    inherits the members of [Object.prototype]. *)

(** The names a plain object inherits from [Object.prototype]. *)
Definition Object_prototype : list string :=
  ["constructor"; "__defineGetter__"; "__defineSetter__"; "hasOwnProperty";
   "__lookupGetter__"; "__lookupSetter__"; "isPrototypeOf";
   "propertyIsEnumerable"; "toString"; "valueOf"; "__proto__";
   "toLocaleString"].

(** The value of a property of [totals]: a number, [NaN], or a string
    that [+=] has built from an inherited member, namely the text of the
    member [member] followed by the decimal forms of [amounts]. *)
Inductive TotalValue : Type :=
| Amount (z : Z)
| NotANumber
| Text (member : string) (amounts : list Z).

(** What [totals[market]] reads: a property of the object itself, a
    member of the prototype (a function; the prototype object itself for
    ["__proto__"]), or [undefined]. *)
Inductive Read : Type :=
| Own (v : TotalValue)
| Inherited (member : string)
| Missing.

Definition read (totals : gmap string TotalValue) (market : string) : Read :=
  match totals !! market with
  | Some v => Own v
  | None =>
      if bool_decide (market ∈ Object_prototype) then Inherited market
      else Missing
  end.

(** [!v]: [undefined], [0] and [NaN] are falsy; a function, an object
    and a string that is not empty are not. *)
Definition falsy (v : Read) : bool :=
  match v with
  | Missing | Own NotANumber => true
  | Own (Amount z) => z =? 0
  | Own (Text _ _) | Inherited _ => false
  end.

(** [v + x] for a number [x]: a sum of numbers, or the concatenation of
    the texts when [v] is a string, a function or an object. *)
Definition plus (v : Read) (x : Z) : TotalValue :=
  match v with
  | Own (Amount t) => Amount (t + x)
  | Own NotANumber | Missing => NotANumber
  | Own (Text member amounts) => Text member (amounts ++ [x])
  | Inherited member => Text member [x]
  end.

(** [totals[market] = v].  An assignment to ["__proto__"] runs the setter
    of [Object.prototype], which ignores a number or a string. *)
Definition assign (market : string) (v : TotalValue) (totals : gmap string TotalValue)
    : gmap string TotalValue :=
  if bool_decide (market = "__proto__") then totals
  else <[market := v]> totals.

(** [if (!totals[market]) totals[market] = 0;
     totals[market] += price * item.quantity;] *)
Definition add_price (quantity : Z) (totals : gmap string TotalValue)
    (entry : string * Z) : gmap string TotalValue :=
  let '(market, price) := entry in
  let totals :=
    if falsy (read totals market) then assign market (Amount 0) totals
    else totals in
  assign market (plus (read totals market) (price * quantity)) totals.

Definition getSupermarketTotals (st : CartState) : gmap string TotalValue :=
  foldl
    (λ totals item,
       foldl (add_price (quantity item)) totals
         (Object_entries (item_prices item)))
    ∅ (cart st).

(** ** The [carts] collection and [POST /api/cart] (CartRoutes.js) *)

(** [req.body.items] as the handler inspects it: absent, a value that is
    not an array (of which only the truthiness matters), or an array of
    line items. *)
Inductive ItemsField : Type :=
| ItemsUndefined
| ItemsOther (truthy : bool)
| ItemsArray (items : list Item).

Record CartBody : Type := {
  body_name : option string;
  body_items : ItemsField;
}.

Record CartRequest : Type := {
  x_auth_token : option string;
  body : CartBody;
}.

Definition is_truthy (v : ItemsField) : bool :=
  match v with
  | ItemsUndefined => false
  | ItemsOther t => t
  | ItemsArray _ => true
  end.

Definition Array_isArray (v : ItemsField) : bool :=
  match v with ItemsArray _ => true | _ => false end.

Definition elements (v : ItemsField) : list Item :=
  match v with ItemsArray l => l | _ => [] end.

(** *** [CartSchema]

    [id] and [name] of an item are required strings, [quantity] is a
    required number with [min: 1], the [name] of the cart is required and
    trimmed.  Mongoose casts a numeric [id] to its decimal string. *)
Definition cast_id (i : ItemId) : string :=
  match i with
  | NumId n => pretty n
  | StrId s => s
  end.

Definition cast_item (item : Item) : StoredItem :=
  {| s_id := cast_id (item_id item);
     s_name := item_name item;
     s_quantity := quantity item;
     s_prices := item_prices item |}.

Definition trim (s : string) : string :=
  String.rev (JS.skip_white_space_rev (String.rev (JS.skip_white_space s))).

Definition required (s : string) : bool :=
  match s with EmptyString => false | String _ _ => true end.

Definition item_validate (item : StoredItem) : bool :=
  required (s_id item) && required (s_name item) && (1 <=? s_quantity item).

Definition CartSchema_validate (doc : CartDoc) : bool :=
  required (cart_name doc) && required (cart_userId doc)
  && forallb item_validate (cart_items doc).

(** [new Cart({ name, items, userId })]: casting, defaults of the
    timestamps and a fresh [_id]. *)
Definition new_Cart (now : Z) (oid : Z) (name : string) (items : list Item)
    (userId : string) : CartDoc :=
  {| cart_oid := oid;
     cart_name := trim name;
     cart_items := cast_item <$> items;
     cart_userId := userId;
     createdAt := now;
     updatedAt := now |}.

(** [doc.save()]: validation first; a document that fails it is not
    written and the call throws. *)
Definition save (doc : CartDoc) (carts : list CartDoc)
    : option (CartDoc * list CartDoc) :=
  if CartSchema_validate doc then Some (doc, carts ++ [doc]) else None.

(** [.sort({ createdAt: -1 })] *)
Definition newest_first (a b : CartDoc) : Prop := createdAt b ≤ createdAt a.

#[global] Instance newest_first_dec : RelDecision newest_first.
Proof. intros a b. unfold newest_first. apply _. Defined.

Definition default_cart_name (now : Z) : string := "עגלה " +:+ pretty now.

Section routes.
(** [jwt.verify(token, secret)]: the [userId] of the payload, [None]
    when verification throws. *)
Variable jwt_verify : string → option string.

(** [authMiddleware]: the user the request acts for, or the 401 answer. *)
Definition authMiddleware {A} (req : CartRequest) : string + Response A :=
  match x_auth_token req with
  | None | Some EmptyString => inr (Message 401 "אין הרשאה, נדרש טוקן")
  | Some token =>
      match jwt_verify token with
      | Some userId => inl userId
      | None => inr (Message 401 "טוקן לא תקין")
      end
  end.

(** The handler of [router.post("/")], for an authenticated request.
    The [_id] that Mongoose gives the new document is modelled as the
    number of documents in the collection; that no stored cart has it is a
    hypothesis of the properties that need it. *)
Definition post_cart (now : Z) (userId : string) (b : CartBody)
    (carts : list CartDoc) : Response CartDoc * list CartDoc :=
  let name := body_name b in
  let items := body_items b in
  if negb (is_truthy items) || negb (Array_isArray items)
     || (length (elements items) =? 0)%nat
  then (Message 400 "העגלה ריקה, לא ניתן לשמור", carts)
  else
    let newCart :=
      new_Cart now (Z.of_nat (length carts))
        (JS.str_or_else name (default_cart_name now))
        (elements items) userId in
    match save newCart carts with
    | Some (savedCart, carts') => (Json 201 savedCart, carts')
    | None => (Message 500 "שגיאת שרת בשמירת העגלה", carts)
    end.

(** [POST /api/cart] with [router.use(authMiddleware)] in front. *)
Definition route_post_cart (now : Z) (req : CartRequest)
    (carts : list CartDoc) : Response CartDoc * list CartDoc :=
  match authMiddleware req with
  | inl userId => post_cart now userId (body req) carts
  | inr denied => (denied, carts)
  end.

(** [GET /api/cart]: the carts of the user, most recent first. *)
Definition route_get_carts (req : CartRequest) (carts : list CartDoc)
    : Response (list CartDoc) :=
  match authMiddleware req with
  | inl userId =>
      Json 200
        (merge_sort newest_first
           (filter (λ c, cart_userId c = userId) carts))
  | inr denied => denied
  end.
End routes.

(** ** Saving the cart from the client (cartAPI.js, CartProvider) *)

(** Everything [saveCart] reads or changes: the state of the provider,
    the user of [UserContext], the token in [localStorage], the clock, the
    [carts] collection of the server, and the requests sent so far (most
    recent first). *)
Record World : Type := {
  ui : CartState;
  currentUser : bool;
  token : option string;
  clock : Z;
  carts_db : list CartDoc;
  requests : list string;
}.

(** An asynchronous function either returns or throws an [Error] with a
    message. *)
Inductive Outcome (A : Type) : Type :=
| Return (a : A)
| Throw (message : string).
Arguments Return {A} a.
Arguments Throw {A} message.

Definition Eff (A : Type) : Type := World → Outcome A * World.

#[global] Instance Eff_ret : MRet Eff := λ A a w, (Return a, w).

#[global] Instance Eff_bind : MBind Eff := λ A B k m w,
  match m w with
  | (Return a, w') => k a w'
  | (Throw e, w') => (Throw e, w')
  end.

Definition throw {A} (message : string) : Eff A := λ w, (Throw message, w).

(** [try { m } catch (err) { h err.message }] *)
Definition try_catch {A} (m : Eff A) (h : string → Eff A) : Eff A := λ w,
  match m w with
  | (Throw e, w') => h e w'
  | r => r
  end.

(** [try { m } finally { f }]: [f] runs on every way out of [m]. *)
Definition finally {A} (m : Eff A) (f : World → World) : Eff A := λ w,
  let '(r, w') := m w in (r, f w').

Definition get {A} (f : World → A) : Eff A := λ w, (Return (f w), w).

Definition with_ui (f : CartState → CartState) (w : World) : World :=
  {| ui := f (ui w); currentUser := currentUser w; token := token w;
     clock := clock w; carts_db := carts_db w; requests := requests w |}.

Definition set_ui (f : CartState → CartState) : Eff () := λ w,
  (Return (), with_ui f w).

Definition response_ok {A} (r : Response A) : bool :=
  match r with
  | Json status _ | Message status _ => (200 <=? status) && (status <=? 299)
  end.

Section client.
Variable jwt_verify : string → option string.

(** [fetch(API_URL/cart, { method: "POST", ... })]: the request is
    logged and served by the route. *)
Definition fetch_post_cart (tok : string) (cartData : CartBody)
    : Eff (Response CartDoc) := λ w,
  let req := {| x_auth_token := Some tok; body := cartData |} in
  let '(resp, carts') := route_post_cart jwt_verify (clock w) req (carts_db w) in
  (Return resp,
   {| ui := ui w; currentUser := currentUser w; token := token w;
      clock := clock w; carts_db := carts';
      requests := "POST /api/cart" :: requests w |}).

Definition fetch_get_carts (tok : string) : Eff (Response (list CartDoc)) :=
  λ w,
  let req := {| x_auth_token := Some tok;
                body := {| body_name := None; body_items := ItemsUndefined |} |} in
  (Return (route_get_carts jwt_verify req (carts_db w)),
   {| ui := ui w; currentUser := currentUser w; token := token w;
      clock := clock w; carts_db := carts_db w;
      requests := "GET /api/cart" :: requests w |}).

(** [getToken()] followed by [if (!token) throw ...] *)
Definition require_token : Eff string :=
  t ← get token;
  match t with
  | Some (String _ _ as tok) => mret tok
  | _ => throw "Unauthorized: User not logged in"
  end.

(** [response.ok ? response.json() : throw new Error(message || d)] *)
Definition json_or_throw {A} (d : string) (r : Response A) : Eff A :=
  match r with
  | Json status v =>
      if response_ok r then mret v else throw d
  | Message status m =>
      throw (JS.str_or_else (Some m) d)
  end.

Definition saveCartToDB (cartData : CartBody) : Eff CartDoc :=
  tok ← require_token;
  response ← fetch_post_cart tok cartData;
  json_or_throw "Failed to save cart" response.

Definition getSavedCarts : Eff (list CartDoc) :=
  tok ← require_token;
  response ← fetch_get_carts tok;
  json_or_throw "Failed to fetch saved carts" response.

Definition fetchSavedCarts : Eff () :=
  finally
    (try_catch
       (user ← get currentUser;
        if negb user then mret ()
        else
          set_ui (setLoading true);;
          carts ← getSavedCarts;
          set_ui (setSavedCarts carts);;
          set_ui (setError None))
       (λ message,
          set_ui (setError (Some ("Error fetching saved carts: " +:+ message)))))
    (with_ui (setLoading false)).

(** [saveCart(name)]; the result [None] is [null]. *)
Definition saveCart (name : option string) : Eff (option CartDoc) :=
  finally
    (try_catch
       (set_ui (setLoading true);;
        cart ← get (λ w, cart (ui w));
        if (length cart =? 0)%nat then
          set_ui (setError (Some "Cannot save an empty cart"));;
          mret None
        else
          now ← get clock;
          let cartData :=
            {| body_name := Some (JS.str_or_else name (default_cart_name now));
               body_items := ItemsArray cart |} in
          savedCart ← saveCartToDB cartData;
          fetchSavedCarts;;
          set_ui (setError None);;
          mret (Some savedCart))
       (λ message,
          set_ui (setError (Some ("Error saving cart: " +:+ message)));;
          mret None))
    (with_ui (setLoading false)).
End client.

(** ** A database for the examples

    [insertion_order_store] answers [find().sort(s)] with the documents
    sorted by the key, those with the same key in the order in which the
    collection holds them. *)

#[global] Instance sort_order_dec s : RelDecision (sort_order s).
Proof. intros a b. destruct s; simpl; apply _. Defined.

#[global] Instance sort_order_trans s : Transitive (sort_order s).
Proof.
  intros a b c. destruct s; simpl; intros Hab Hbc.
  - lia.
  - lia.
  - by trans (name b).
Qed.

#[global] Instance sort_order_total s : Total (sort_order s).
Proof.
  intros a b. destruct s; simpl.
  - lia.
  - lia.
  - apply String.le_total.
Qed.

Definition insertion_order_store : ProductStore :=
  {| find_sort s db := merge_sort (sort_order s) db;
     find_sort_perm s db := merge_sort_Permutation (sort_order s) db;
     find_sort_sorted s db := StronglySorted_merge_sort (sort_order s) db |}.

(** ** The vocabulary of the specification *)

(** [m] is the minimum (maximum) value across the price map of [p]. *)
Definition lowest_price (p : Product) (m : Z) : Prop :=
  (∃ market, prices p !! market = Some m)
  ∧ ∀ market v, prices p !! market = Some v → m ≤ v.

Definition highest_price (p : Product) (m : Z) : Prop :=
  (∃ market, prices p !! market = Some m)
  ∧ ∀ market v, prices p !! market = Some v → v ≤ m.

(** The spread: maximum minus minimum. *)
Definition spread (p : Product) (d : Z) : Prop :=
  ∃ lo hi, lowest_price p lo ∧ highest_price p hi ∧ d = hi - lo.

(** [a] may stand before [b] in a ranking by ascending minimum price,
    respectively by descending spread. *)
Definition cheaper_or_equal (a b : Product) : Prop :=
  ∃ ma mb, lowest_price a ma ∧ lowest_price b mb ∧ ma ≤ mb.

Definition spread_at_least (a b : Product) : Prop :=
  ∃ da db, spread a da ∧ spread b db ∧ db ≤ da.

Definition priced (p : Product) : Prop := prices p ≠ ∅.
Definition unpriced (p : Product) : Prop := prices p = ∅.

#[global] Instance unpriced_dec p : Decision (unpriced p).
Proof. unfold unpriced. apply _. Defined.

(** The ordering of extended numbers that are not NaN. *)
Definition num_le (a b : JS.number) : Prop :=
  match a, b with
  | JS.NaN, _ | _, JS.NaN => False
  | JS.NegInf, _ => True
  | _, JS.PosInf => True
  | JS.Fin x, JS.Fin y => x ≤ y
  | _, _ => False
  end.

(** [Array.prototype.sort] does not move [x] behind [y]. *)
Definition keeps_before {A} (comparefn : A → A → JS.number) (x y : A) : Prop :=
  JS.gt0 (comparefn x y) = false.

(** The sum of price × quantity over the items that list [market]. *)
Definition market_total (market : string) (items : list Item) : Z :=
  foldr
    (λ item acc,
       match item_prices item !! market with
       | Some price => price * quantity item + acc
       | None => acc
       end) 0 items.

(** The item lists a price at [market]. *)
Definition lists (market : string) (item : Item) : Prop :=
  is_Some (item_prices item !! market).

#[global] Instance lists_dec market item : Decision (lists market item).
Proof. unfold lists. apply _. Defined.

(** Every line item has a quantity of at least one. *)
Definition quantities_ok (c : list Item) : Prop :=
  Forall (λ item, 1 ≤ quantity item) c.

(** [items] is missing, is not an array, or is the empty array. *)
Definition no_items (v : ItemsField) : Prop :=
  v = ItemsUndefined ∨ (∃ t, v = ItemsOther t) ∨ v = ItemsArray [].

(** The criterion names the controller recognises. *)
Definition recognized : list string :=
  ["cheapest"; "highest different"; "most selected"; "highest rated"].

(** Sample data. *)
Definition product (n : string) (ps : list (string * Z)) (pop : Z) : Product :=
  {| id := 0; name := n; category := "food"; prices := list_to_map ps;
     unit := "unit"; popularity := pop; rating := 0; ratingCount := 0 |}.

Definition query (criteria limit : string) : Query :=
  {| q_criteria := Some criteria; q_limit := Some limit |}.

(** The products of the examples of the specification. *)
Definition prod_A : Product := product "A" [("x", 10); ("y", 12)] 0.
Definition prod_B : Product := product "B" [("x", 5); ("y", 5)] 0.
Definition prod_C : Product := product "C" [] 0.
Definition wide_Z : Product := product "Z" [("x", 10); ("y", 20)] 0.

(** The cart of the aggregation example. *)
Definition line (n : Z) (ps : list (string * Z)) (q : Z) : Item :=
  {| item_id := NumId n; item_name := "item"; item_category := None;
     item_prices := list_to_map ps; quantity := q |}.

Definition provider (c : list Item) : CartState :=
  {| cart := c; savedCarts := []; loading := false; error := None |}.

Definition example_cart : list Item :=
  [line 1 [("x", 10); ("y", 8)] 2; line 2 [("x", 5)] 1].

(** A verifier that accepts one token, and a logged-in client. *)
Definition demo_verify (tok : string) : option string :=
  if decide (tok = "good-token") then Some "user-1" else None.

Definition client_world (c : list Item) : World :=
  {| ui := provider c; currentUser := true; token := Some "good-token";
     clock := 1700; carts_db := []; requests := [] |}.

(** An item of a saved cart as the client receives it: the [id] is the
    string the schema stores, the fields the schema does not have are
    gone. *)
Definition item_of_stored (s : StoredItem) : Item :=
  {| item_id := StrId (s_id s);
     item_name := s_name s;
     item_category := None;
     item_prices := s_prices s;
     quantity := s_quantity s |}.

(** ** The quantity selector, the buttons of a cart line and the pages
    (ProductCard, ProductModal, CartItem, CartPage, SavedCartsPage) *)

(** [increaseQty] and [decreaseQty]: the updaters of the [quantity] state. *)
Definition increaseQty (q : Z) : Z := Z.min (q + 1) 99.
Definition decreaseQty (q : Z) : Z := Z.max (q - 1) 1.

Inductive Press : Type :=
| PressPlus
| PressMinus.

Definition press (q : Z) (b : Press) : Z :=
  match b with
  | PressPlus => increaseQty q
  | PressMinus => decreaseQty q
  end.

(** The [quantity] state after the buttons were pressed in turn. *)
Definition selected_quantity (initial : Z) (presses : list Press) : Z :=
  foldl press initial presses.

(** ProductCard: [useState(1)], then [addToCart(product, null, quantity)]. *)
Definition card_handleAddToCart (product : Product) (presses : list Press)
    (st : CartState) : CartState :=
  addToCart product (Some (selected_quantity 1 presses)) st.

(** ProductModal: [cart.find((item) => item.id === product.id)] and
    [useState(existingItem?.quantity || 1)]. *)
Definition existingItem (product : Product) (st : CartState) : option Item :=
  List.find (λ item, bool_decide (item_id item = NumId (id product))) (cart st).

Definition modal_initial_quantity (product : Product) (st : CartState) : Z :=
  match existingItem product st with
  | Some item => if quantity item =? 0 then 1 else quantity item
  | None => 1
  end.

Definition modal_handleAddToCart (product : Product) (presses : list Press)
    (st : CartState) : CartState :=
  addToCart product
    (Some (selected_quantity (modal_initial_quantity product st) presses)) st.

(** CartItem: the minus button is [disabled] when [item.quantity <= 1]. *)
Definition item_minus (item : Item) (st : CartState) : CartState :=
  if quantity item <=? 1 then st
  else updateQuantity (item_id item) (quantity item - 1) st.

Definition item_plus (item : Item) (st : CartState) : CartState :=
  updateQuantity (item_id item) (quantity item + 1) st.

Definition item_remove (item : Item) (st : CartState) : CartState :=
  removeFromCart (item_id item) st.

(** SavedCartsPage: [loadCart(selectedCart.items)], for a saved cart
    the server has answered with. *)
Definition loadSelectedCart (selectedCart : CartDoc) (st : CartState)
    : CartState :=
  loadCart (item_of_stored <$> cart_items selectedCart) st.

(** What the user can do to the cart.  A line is addressed by its
    position in the rendered cart; a position beyond the cart has no
    button to press.  Saving the cart (CartPage) does not change it and is
    not listed. *)
Inductive UIEvent : Type :=
| CardAdd (product : Product) (presses : list Press)
| ModalAdd (product : Product) (presses : list Press)
| LineMinus (i : nat)
| LinePlus (i : nat)
| LineRemove (i : nat)
| ClearAll
| LoadSaved (selectedCart : CartDoc).

Definition on_line (i : nat) (f : Item → CartState → CartState)
    (st : CartState) : CartState :=
  match cart st !! i with
  | Some item => f item st
  | None => st
  end.

Definition ui_step (st : CartState) (e : UIEvent) : CartState :=
  match e with
  | CardAdd product presses => card_handleAddToCart product presses st
  | ModalAdd product presses => modal_handleAddToCart product presses st
  | LineMinus i => on_line i item_minus st
  | LinePlus i => on_line i item_plus st
  | LineRemove i => on_line i item_remove st
  | ClearAll => clearCart st
  | LoadSaved selectedCart => loadSelectedCart selectedCart st
  end.

Definition ui_run (events : list UIEvent) (st : CartState) : CartState :=
  foldl ui_step st events.

(** The invariant of the cart: quantities of at least 1, ids pairwise
    distinct. *)
Definition cart_ok (st : CartState) : Prop :=
  quantities_ok (cart st) ∧ NoDup (cart_ids (cart st)).

(** Every saved cart the events load passes the schema; the events load
    no saved cart. *)
Definition loads_valid (events : list UIEvent) : Prop :=
  Forall (λ e, match e with
               | LoadSaved selectedCart =>
                   CartSchema_validate selectedCart = true
               | _ => True
               end) events.

Definition loads_nothing (events : list UIEvent) : Prop :=
  Forall (λ e, match e with LoadSaved _ => False | _ => True end) events.

(** ** The other routes of CartRoutes.js *)

(** [Cart.findById(id)]: the first document with that [_id], and its
    position in the collection. *)
Definition findById (oid : Z) (carts : list CartDoc) : option (nat * CartDoc) :=
  list_find (λ c, cart_oid c = oid) carts.

(** [req.params.id] is [None] when the string in the URL is not an
    ObjectId: [findById] then throws a [CastError], which the [catch]
    block answers with 500. *)

(** The handler of [router.get("/:id")]. *)
Definition get_cart (userId : string) (param : option Z)
    (carts : list CartDoc) : Response CartDoc :=
  match param with
  | None => Message 500 "שגיאת שרת בטעינת העגלה"
  | Some oid =>
      match findById oid carts with
      | None => Message 404 "העגלה לא נמצאה"
      | Some (_, cart) =>
          if decide (cart_userId cart ≠ userId)
          then Message 403 "אין הרשאה לצפות בעגלה זו"
          else Json 200 cart
      end
  end.

(** The handler of [router.put("/:id")].  Assigning [cart.name] runs the
    [trim] of the schema; [cart.save()] validates and then replaces the
    stored document. *)
Definition put_cart (now : Z) (userId : string) (param : option Z)
    (b : CartBody) (carts : list CartDoc) : Response CartDoc * list CartDoc :=
  let name := body_name b in
  let items := body_items b in
  if negb (is_truthy items) || negb (Array_isArray items)
  then (Message 400 "נתוני עגלה לא תקינים", carts)
  else
    match param with
    | None => (Message 500 "שגיאת שרת בעדכון העגלה", carts)
    | Some oid =>
        match findById oid carts with
        | None => (Message 404 "העגלה לא נמצאה", carts)
        | Some (i, cart) =>
            if decide (cart_userId cart ≠ userId)
            then (Message 403 "אין הרשאה לעדכן עגלה זו", carts)
            else
              let updatedCart :=
                {| cart_oid := cart_oid cart;
                   cart_name := trim (JS.str_or_else name (cart_name cart));
                   cart_items := cast_item <$> elements items;
                   cart_userId := cart_userId cart;
                   createdAt := createdAt cart;
                   updatedAt := now |} in
              if CartSchema_validate updatedCart
              then (Json 200 updatedCart, <[i := updatedCart]> carts)
              else (Message 500 "שגיאת שרת בעדכון העגלה", carts)
        end
    end.

(** The handler of [router.delete("/:id")]; [Cart.deleteOne({ _id })]
    removes the first document with that [_id]. *)
Definition delete_cart (userId : string) (param : option Z)
    (carts : list CartDoc) : Response () * list CartDoc :=
  match param with
  | None => (Message 500 "שגיאת שרת במחיקת העגלה", carts)
  | Some oid =>
      match findById oid carts with
      | None => (Message 404 "העגלה לא נמצאה", carts)
      | Some (i, cart) =>
          if decide (cart_userId cart ≠ userId)
          then (Message 403 "אין הרשאה למחוק עגלה זו", carts)
          else (Message 200 "העגלה נמחקה בהצלחה", delete i carts)
      end
  end.

Definition status {A} (r : Response A) : Z :=
  match r with
  | Json s _ | Message s _ => s
  end.

(** A request to the router of the carts. *)
Inductive CartCall : Type :=
| GetCarts
| GetCart (param : option Z)
| PostCart (b : CartBody)
| PutCart (param : option Z) (b : CartBody)
| DeleteCart (param : option Z).

Definition no_body : CartBody :=
  {| body_name := None; body_items := ItemsUndefined |}.

Section cart_router.
Variable jwt_verify : string → option string.

Definition route_get_cart (req : CartRequest) (param : option Z)
    (carts : list CartDoc) : Response CartDoc :=
  match authMiddleware jwt_verify req with
  | inl userId => get_cart userId param carts
  | inr denied => denied
  end.

Definition route_put_cart (now : Z) (req : CartRequest) (param : option Z)
    (carts : list CartDoc) : Response CartDoc * list CartDoc :=
  match authMiddleware jwt_verify req with
  | inl userId => put_cart now userId param (body req) carts
  | inr denied => (denied, carts)
  end.

Definition route_delete_cart (req : CartRequest) (param : option Z)
    (carts : list CartDoc) : Response () * list CartDoc :=
  match authMiddleware jwt_verify req with
  | inl userId => delete_cart userId param carts
  | inr denied => (denied, carts)
  end.

(** The router: the status of the answer and the collection afterwards. *)
Definition cart_router (now : Z) (tok : option string) (call : CartCall)
    (carts : list CartDoc) : Z * list CartDoc :=
  let request b := {| x_auth_token := tok; body := b |} in
  match call with
  | GetCarts =>
      (status (route_get_carts jwt_verify (request no_body) carts), carts)
  | GetCart param =>
      (status (route_get_cart (request no_body) param carts), carts)
  | PostCart b =>
      let '(r, carts') := route_post_cart jwt_verify now (request b) carts in
      (status r, carts')
  | PutCart param b =>
      let '(r, carts') := route_put_cart now (request b) param carts in
      (status r, carts')
  | DeleteCart param =>
      let '(r, carts') := route_delete_cart (request no_body) param carts in
      (status r, carts')
  end.

(** The user a token stands for, as [authMiddleware] decides it. *)
Definition user_of (tok : option string) : option string :=
  match tok with
  | None | Some EmptyString => None
  | Some t => jwt_verify t
  end.
End cart_router.

(** The carts of a user, and the items of the stored carts. *)
Definition carts_of (userId : string) (carts : list CartDoc) : list CartDoc :=
  filter (λ c, cart_userId c = userId) carts.

Definition stored_quantities_ok (carts : list CartDoc) : Prop :=
  Forall (λ doc, Forall (λ item, 1 ≤ s_quantity item) (cart_items doc)) carts.

(** A collection with the carts of two users. *)
Definition stored_cart (oid : Z) (owner : string) (created : Z) (q : Z)
    : CartDoc :=
  {| cart_oid := oid; cart_name := "weekly";
     cart_items := [{| s_id := "1"; s_name := "milk"; s_quantity := q;
                       s_prices := {[ "x" := 6 ]} |}];
     cart_userId := owner; createdAt := created; updatedAt := created |}.

Definition demo_carts : list CartDoc :=
  [stored_cart 0 "user-1" 10 2; stored_cart 1 "user-2" 20 1;
   stored_cart 2 "user-1" 30 5].

(** ** Loading and deleting saved carts from the client
    (cartAPI.js, CartProvider, SavedCartsPage) *)

Definition log_request (r : string) (w : World) : World :=
  {| ui := ui w; currentUser := currentUser w; token := token w;
     clock := clock w; carts_db := carts_db w;
     requests := r :: requests w |}.

Definition set_carts_db (carts : list CartDoc) (w : World) : World :=
  {| ui := ui w; currentUser := currentUser w; token := token w;
     clock := clock w; carts_db := carts;
     requests := requests w |}.

(** [response.ok ? response.json().message : throw new Error(message || d)]
    for a route that answers with a message. *)
Definition message_or_throw (d : string) (r : Response ()) : Eff string :=
  match r with
  | Message status m =>
      if response_ok r then mret m else throw (JS.str_or_else (Some m) d)
  | Json status _ =>
      if response_ok r then mret "" else throw d
  end.

(** [new Date(b.createdAt) - new Date(a.createdAt)], the comparator of
    SavedCartsPage. *)
Definition compare_created (a b : CartDoc) : JS.number :=
  JS.sub (JS.Fin (createdAt b)) (JS.Fin (createdAt a)).

Section client_saved.
Variable jwt_verify : string → option string.

Definition fetch_get_cart (tok : string) (cartId : Z)
    : Eff (Response CartDoc) := λ w,
  let req := {| x_auth_token := Some tok; body := no_body |} in
  (Return (route_get_cart jwt_verify req (Some cartId) (carts_db w)),
   log_request ("GET /api/cart/" +:+ pretty cartId) w).

Definition fetch_delete_cart (tok : string) (cartId : Z)
    : Eff (Response ()) := λ w,
  let req := {| x_auth_token := Some tok; body := no_body |} in
  let '(resp, carts') :=
    route_delete_cart jwt_verify req (Some cartId) (carts_db w) in
  (Return resp,
   log_request ("DELETE /api/cart/" +:+ pretty cartId) (set_carts_db carts' w)).

Definition getSavedCartById (cartId : Z) : Eff CartDoc :=
  tok ← require_token;
  response ← fetch_get_cart tok cartId;
  json_or_throw "Failed to fetch cart" response.

Definition deleteSavedCart (cartId : Z) : Eff string :=
  tok ← require_token;
  response ← fetch_delete_cart tok cartId;
  message_or_throw "Failed to delete cart" response.

(** [loadSavedCart(cartId)].  A cart the server answers with always has
    its [items], so the branch that returns [false] without an error is
    not taken. *)
Definition loadSavedCart (cartId : Z) : Eff bool :=
  finally
    (try_catch
       (set_ui (setLoading true);;
        savedCart ← getSavedCartById cartId;
        set_ui (setCart (item_of_stored <$> cart_items savedCart));;
        set_ui (setError None);;
        mret true)
       (λ message,
          set_ui (setError (Some ("Error loading saved cart: " +:+ message)));;
          mret false))
    (with_ui (setLoading false)).

Definition deleteSavedCartById (cartId : Z) : Eff bool :=
  finally
    (try_catch
       (set_ui (setLoading true);;
        deleteSavedCart cartId;;
        fetchSavedCarts jwt_verify;;
        set_ui (setError None);;
        mret true)
       (λ message,
          set_ui (setError (Some ("Error deleting saved cart: " +:+ message)));;
          mret false))
    (with_ui (setLoading false)).

(** SavedCartsPage: the effect that fills [saved]; [None] when the
    request fails and [saved] keeps its value. *)
Definition page_fetchSavedCarts : Eff (option (list CartDoc)) :=
  try_catch
    (carts ← getSavedCarts jwt_verify;
     mret (Some (JS.Array_sort compare_created carts)))
    (λ _, mret None).
End client_saved.

(** ** Top products on the client (productAPI.js, ProductContext) *)


(** The state of ProductProvider. *)
Record ProductCtx : Type := {
  products : list Product;
  products_loading : bool;
  products_error : option string;
}.

(** [Math.min(...Object.values(a.prices))] and the difference of
    [Math.max] and [Math.min], on the plain object of a product of the
    provider. *)
Definition local_min_price (p : Product) : JS.number :=
  JS.Math_min (Object_values (PlainObject (prices p))).

Definition local_price_diff (p : Product) : JS.number :=
  JS.sub (JS.Math_max (Object_values (PlainObject (prices p))))
         (JS.Math_min (Object_values (PlainObject (prices p)))).

(** [sortFunctions] of ProductContext: its two members, and
    [sortFunctions[sortBy]] for the two criteria it is consulted for. *)
Definition sortFunctions_cheapest (a b : Product) : JS.number :=
  JS.sub (local_min_price a) (local_min_price b).

Definition sortFunctions_highest_different (a b : Product) : JS.number :=
  JS.sub (local_price_diff b) (local_price_diff a).

Definition sortFunctions (sortBy : string) : Product → Product → JS.number :=
  if decide (sortBy = "cheapest") then sortFunctions_cheapest
  else sortFunctions_highest_different.

Section product_provider.
(** [getTopProducts(criteria, limit)] of productAPI.js, imported as
    [fetchTopProducts]: the request to [/products/top], which returns the
    list in the answer or throws. *)
Variable fetchTopProducts : string → JS.number → Outcome (list Product).

(** [getTopProducts(sortBy = "cheapest", amount = 10)] of ProductContext:
    the list returned and the state afterwards. *)
Definition provider_getTopProducts (sortBy_arg : option string)
    (amount_arg : option JS.number) (ctx : ProductCtx)
    : list Product * ProductCtx :=
  let sortBy := default "cheapest" sortBy_arg in
  let amount := default (JS.Fin 10) amount_arg in
  if (0 <? length (products ctx))%nat
     && (bool_decide (sortBy = "cheapest")
         || bool_decide (sortBy = "highest different"))
  then
    let sorted := JS.Array_sort (sortFunctions sortBy) (products ctx) in
    (JS.Array_slice0 amount sorted,
     {| products := products ctx; products_loading := false;
        products_error := products_error ctx |})
  else
    match fetchTopProducts sortBy amount with
    | Return topProducts =>
        (topProducts,
         {| products := products ctx; products_loading := false;
            products_error := None |})
    | Throw message =>
        ([],
         {| products := products ctx; products_loading := false;
            products_error :=
              Some ("Error fetching top products: " +:+ message) |})
    end.
End product_provider.


(** ** Writing products (ProductRoutes.js, ProductController.js) *)

(** [req.body] of the admin routes. *)
Record ProductBody : Type := {
  pb_name : option string;
  pb_description : option string;
  pb_category : option string;
  pb_prices : option (gmap string Z);
  pb_unit : option string;
  pb_popularity : option Z;
  pb_rating : option Z;
}.

(** A stored product: its [_id], the fields the [Product] record does not
    carry, and the product. *)
Record ProductRow : Type := {
  row_oid : Z;
  row_description : option string;
  row_updatedAt : Z;
  row_product : Product;
}.

(** [new Product({ name, description, category, prices, unit })] before
    validation: [id] is a path of its own, which may be missing. *)
Record ProductDraft : Type := {
  draft_id : option Z;
  draft_name : string;
  draft_description : option string;
  draft_category : string;
  draft_prices : gmap string Z;
  draft_unit : string;
}.

Definition truthy_string (v : option string) : bool :=
  match v with
  | Some (String _ _) => true
  | Some EmptyString | None => false
  end.

(** [ProductSchema]: [id], [name], [category] and [prices] are required;
    [name] and [category] are trimmed; [popularity], [rating] and
    [ratingCount] default to [0].  The result is the validated product,
    [None] when validation fails. *)
Definition ProductSchema_validate (d : ProductDraft) : option Product :=
  match draft_id d with
  | Some i =>
      if required (trim (draft_name d)) && required (trim (draft_category d))
      then Some {| id := i; name := trim (draft_name d);
                   category := trim (draft_category d);
                   prices := draft_prices d; unit := draft_unit d;
                   popularity := 0; rating := 0; ratingCount := 0 |}
      else None
  | None => None
  end.

(** [exports.createProduct] *)
Definition createProduct (now : Z) (b : ProductBody) (rows : list ProductRow)
    : Response ProductRow * list ProductRow :=
  if negb (truthy_string (pb_name b)) || negb (truthy_string (pb_category b))
     || negb (bool_decide (is_Some (pb_prices b)))
  then (Message 400 "נדרשים שם, קטגוריה ומחירים", rows)
  else
    let newProduct :=
      {| draft_id := None;
         draft_name := default "" (pb_name b);
         draft_description := pb_description b;
         draft_category := default "" (pb_category b);
         draft_prices := default ∅ (pb_prices b);
         draft_unit := JS.str_or_else (pb_unit b) "unit" |} in
    match ProductSchema_validate newProduct with
    | Some p =>
        let savedProduct :=
          {| row_oid := Z.of_nat (length rows);
             row_description := trim <$> draft_description newProduct;
             row_updatedAt := now; row_product := p |} in
        (Json 201 savedProduct, rows ++ [savedProduct])
    | None => (Message 500 "שגיאת שרת ביצירת מוצר", rows)
    end.

(** [Product.findById(req.params.id)] *)
Definition find_product (oid : Z) (rows : list ProductRow)
    : option (nat * ProductRow) :=
  list_find (λ r, row_oid r = oid) rows.

(** [exports.updateProduct]: [if (name)], [if (category)], [if (prices)]
    and [if (unit)] skip a missing or empty value, the three other fields
    are assigned whenever they are present. *)
Definition updated_product (b : ProductBody) (p : Product) : Product :=
  {| id := id p;
     name := if truthy_string (pb_name b)
             then trim (default "" (pb_name b)) else name p;
     category := if truthy_string (pb_category b)
                 then trim (default "" (pb_category b)) else category p;
     prices := default (prices p) (pb_prices b);
     unit := JS.str_or_else (pb_unit b) (unit p);
     popularity := default (popularity p) (pb_popularity b);
     rating := default (rating p) (pb_rating b);
     ratingCount := ratingCount p |}.

Definition updateProduct (now : Z) (param : option Z) (b : ProductBody)
    (rows : list ProductRow) : Response ProductRow * list ProductRow :=
  match param with
  | None => (Message 500 "שגיאת שרת בעדכון מוצר", rows)
  | Some oid =>
      match find_product oid rows with
      | None => (Message 404 "המוצר לא נמצא", rows)
      | Some (i, product) =>
          let updatedProduct :=
            {| row_oid := row_oid product;
               row_description :=
                 match pb_description b with
                 | Some d => Some (trim d)
                 | None => row_description product
                 end;
               row_updatedAt := now;
               row_product := updated_product b (row_product product) |} in
          if required (name (row_product updatedProduct))
             && required (category (row_product updatedProduct))
          then (Json 200 updatedProduct, <[i := updatedProduct]> rows)
          else (Message 500 "שגיאת שרת בעדכון מוצר", rows)
      end
  end.

(** [exports.deleteProduct] *)
Definition deleteProduct (param : option Z) (rows : list ProductRow)
    : Response ProductRow * list ProductRow :=
  match param with
  | None => (Message 500 "שגיאת שרת במחיקת מוצר", rows)
  | Some oid =>
      match find_product oid rows with
      | None => (Message 404 "המוצר לא נמצא", rows)
      | Some (i, _) => (Message 200 "המוצר נמחק בהצלחה", delete i rows)
      end
  end.

Inductive ProductCall : Type :=
| CreateProduct (b : ProductBody)
| UpdateProduct (param : option Z) (b : ProductBody)
| DeleteProduct (param : option Z).

Section product_routes.
(** [jwt.verify]: the [userId] and the [isAdmin] flag of the payload (a
    payload without the flag counts as not admin). *)
Variable jwt_decode : string → option (string * bool).

(** [authMiddleware] followed by [adminMiddleware] (ProductRoutes.js):
    the answer that stops the request, if any. *)
Definition admin_gate {A} (tok : option string) : option (Response A) :=
  match tok with
  | None | Some EmptyString => Some (Message 401 "אין הרשאה, נדרש טוקן")
  | Some t =>
      match jwt_decode t with
      | None => Some (Message 401 "טוקן לא תקין")
      | Some (_, isAdmin) =>
          if negb isAdmin then Some (Message 403 "אין הרשאת מנהל") else None
      end
  end.

(** The three admin routes: the status of the answer and the collection
    afterwards. *)
Definition product_router (now : Z) (tok : option string) (call : ProductCall)
    (rows : list ProductRow) : Z * list ProductRow :=
  match admin_gate (A:=ProductRow) tok with
  | Some denied => (status denied, rows)
  | None =>
      let '(r, rows') :=
        match call with
        | CreateProduct b => createProduct now b rows
        | UpdateProduct param b => updateProduct now param b rows
        | DeleteProduct param => deleteProduct param rows
        end in
      (status r, rows')
  end.
End product_routes.

Definition no_fields : ProductBody :=
  {| pb_name := None; pb_description := None; pb_category := None;
     pb_prices := None; pb_unit := None; pb_popularity := None;
     pb_rating := None |}.

(** A token for an admin and one for a customer, and two stored products. *)
Definition demo_decode (tok : string) : option (string * bool) :=
  if decide (tok = "admin-token") then Some ("admin", true)
  else if decide (tok = "good-token") then Some ("user-1", false)
  else None.

Definition demo_rows : list ProductRow :=
  [{| row_oid := 0; row_description := None; row_updatedAt := 5;
      row_product := prod_A |};
   {| row_oid := 1; row_description := Some "bread"; row_updatedAt := 6;
      row_product := prod_B |}].

(** * Properties *)

(** ** [Array.prototype.sort] and [slice] *)

Section sort_facts.
Context {A : Type} (comparefn : A → A → JS.number).

Lemma sort_insert_perm x l : JS.sort_insert comparefn x l ≡ₚ x :: l.
Proof.
  induction l as [|y l IH]; simpl; [done|].
  destruct (JS.gt0 (comparefn x y)); [|done].
  rewrite IH. apply Permutation_swap.
Qed.

Lemma Array_sort_cons x l :
  JS.Array_sort comparefn (x :: l)
  = JS.sort_insert comparefn x (JS.Array_sort comparefn l).
Proof. done. Qed.

Lemma Array_sort_perm l : JS.Array_sort comparefn l ≡ₚ l.
Proof.
  induction l as [|x l IH]; [done|].
  by rewrite Array_sort_cons, sort_insert_perm, IH.
Qed.

Lemma Array_sort_length l : length (JS.Array_sort comparefn l) = length l.
Proof. by rewrite Array_sort_perm. Qed.

(** A consistent comparator: of two elements at most one is moved behind
    the other, and [keeps_before] is transitive. *)
Hypothesis comparefn_asym :
  ∀ x y, JS.gt0 (comparefn x y) = true → keeps_before comparefn y x.
Hypothesis comparefn_trans : Transitive (keeps_before comparefn).

Lemma sort_insert_sorted x l :
  StronglySorted (keeps_before comparefn) l →
  StronglySorted (keeps_before comparefn) (JS.sort_insert comparefn x l).
Proof.
  induction 1 as [|y l Hl IH Hy]; simpl.
  - repeat constructor.
  - destruct (JS.gt0 (comparefn x y)) eqn:Hxy.
    + constructor; [done|].
      rewrite sort_insert_perm. constructor; [by apply comparefn_asym|done].
    + constructor; [by constructor|].
      constructor; [done|].
      eapply Forall_impl; [exact Hy|].
      intros z Hyz. by trans y.
Qed.

Lemma Array_sort_sorted l :
  StronglySorted (keeps_before comparefn) (JS.Array_sort comparefn l).
Proof.
  induction l as [|x l IH]; [constructor|].
  rewrite Array_sort_cons. by apply sort_insert_sorted.
Qed.
End sort_facts.

Section stability.
Context {A : Type} (comparefn : A → A → JS.number).
Context (P : A → Prop) `{!∀ x, Decision (P x)}.

(** Elements of the class [P] are never moved behind one another. *)
Hypothesis class_tied : ∀ x y, P x → P y → JS.gt0 (comparefn x y) = false.

Lemma sort_insert_filter x l :
  filter P (JS.sort_insert comparefn x l) = filter P (x :: l).
Proof.
  induction l as [|y l IH]; simpl; [done|].
  destruct (JS.gt0 (comparefn x y)) eqn:Hxy; [|done].
  rewrite filter_cons, IH, !filter_cons.
  destruct (decide (P y)) as [Hy|Hy], (decide (P x)) as [Hx|Hx]; try done.
  by rewrite class_tied in Hxy.
Qed.

Lemma Array_sort_filter l :
  filter P (JS.Array_sort comparefn l) = filter P l.
Proof.
  induction l as [|x l IH]; [done|].
  by rewrite Array_sort_cons, sort_insert_filter, !filter_cons, IH.
Qed.
End stability.

Lemma filter_take_prefix {A} (P : A → Prop) `{!∀ x, Decision (P x)} n (l : list A) :
  filter P (take n l) `prefix_of` filter P l.
Proof.
  exists (filter P (drop n l)).
  by rewrite <-filter_app, take_drop.
Qed.

Lemma Array_slice0_take {A} (e : JS.number) (l : list A) :
  ∃ n, JS.Array_slice0 e l = take n l.
Proof. by eexists. Qed.

Lemma Array_slice0_length_pos {A} n (l : list A) :
  0 < n → Z.of_nat (length (JS.Array_slice0 (JS.Fin n) l)) = Z.min n (Z.of_nat (length l)).
Proof.
  intros Hn. unfold JS.Array_slice0, JS.slice_end.
  destruct (Z.ltb_spec n 0); [lia|].
  rewrite length_take. lia.
Qed.

Lemma Array_slice0_all {A} n (l : list A) :
  Z.of_nat (length l) ≤ n → JS.Array_slice0 (JS.Fin n) l = l.
Proof.
  intros Hn. unfold JS.Array_slice0, JS.slice_end.
  destruct (Z.ltb_spec n 0); [lia|].
  apply take_ge. lia.
Qed.

Lemma cursor_limit_take {A} (e : JS.number) (l : list A) :
  ∃ n, cursor_limit e l = take n l.
Proof.
  destruct e as [| |z|]; simpl; try (exists (length l); by rewrite firstn_all).
  destruct (z =? 0); [exists (length l); by rewrite firstn_all|by eexists].
Qed.

Lemma cursor_limit_length_pos {A} n (l : list A) :
  0 < n → Z.of_nat (length (cursor_limit (JS.Fin n) l)) = Z.min n (Z.of_nat (length l)).
Proof.
  intros Hn. simpl. destruct (Z.eqb_spec n 0); [lia|].
  rewrite length_take. lia.
Qed.

Lemma StronglySorted_take {A} (R : relation A) n l :
  StronglySorted R l → StronglySorted R (take n l).
Proof.
  intros Hl. rewrite <-(take_drop n l) in Hl.
  by apply StronglySorted_app_1_l in Hl.
Qed.

Lemma StronglySorted_weaken {A} (R1 R2 : relation A) l :
  (∀ x y, x ∈ l → y ∈ l → R1 x y → R2 x y) →
  StronglySorted R1 l → StronglySorted R2 l.
Proof.
  intros HR Hl. induction Hl as [|x l Hl IH Hx]; constructor.
  - apply IH. intros y z Hy Hz. apply HR; by right.
  - apply Forall_forall. intros y Hy.
    apply HR; [by left|by right|].
    rewrite Forall_forall in Hx. by apply Hx.
Qed.

(** A list sorted by a relation that never puts a [Q] element before a
    non-[Q] element has all its [Q] elements at the end. *)
Lemma StronglySorted_split {A} (R : relation A) (Q : A → Prop)
    `{!∀ x, Decision (Q x)} l :
  (∀ x y, Q x → ¬ Q y → ¬ R x y) →
  StronglySorted R l →
  ∃ l1 l2, l = l1 ++ l2 ∧ Forall (λ x, ¬ Q x) l1 ∧ Forall Q l2.
Proof.
  intros HQ Hl. induction Hl as [|x l Hl IH Hx].
  - by exists [], [].
  - destruct IH as (l1 & l2 & -> & H1 & H2).
    destruct (decide (Q x)) as [Hqx|Hqx].
    + exists [], (x :: l1 ++ l2). split_and!; [done|done|].
      constructor; [done|].
      apply Forall_forall. intros y Hy.
      destruct (decide (Q y)) as [|Hqy]; [done|].
      rewrite Forall_forall in Hx. destruct (HQ x y Hqx Hqy). by apply Hx.
    + exists (x :: l1), l2. split_and!; [done| |done]. by constructor.
Qed.

(** ** Ranking keys on a plain price object *)

Lemma num_le_trans a b c : num_le a b → num_le b c → num_le a c.
Proof. destruct a, b, c; simpl; try done; lia. Qed.

Lemma gt0_sub a b :
  a ≠ JS.NaN → b ≠ JS.NaN → JS.gt0 (JS.sub a b) = false ↔ num_le a b.
Proof.
  intros Ha Hb. destruct a, b; simpl; try done.
  rewrite Z.ltb_ge. lia.
Qed.

Lemma gt0_sub_self a : JS.gt0 (JS.sub a a) = false.
Proof. destruct a; simpl; try done. apply Z.ltb_ge. lia. Qed.

Lemma gt0_sub_asym a b :
  a ≠ JS.NaN → b ≠ JS.NaN →
  JS.gt0 (JS.sub a b) = true → JS.gt0 (JS.sub b a) = false.
Proof.
  intros Ha Hb. destruct a, b; simpl; try done.
  rewrite Z.ltb_lt, Z.ltb_ge. lia.
Qed.

Lemma Math_min_nil : JS.Math_min [] = JS.PosInf.
Proof. done. Qed.

Lemma Math_min_Fin (l : list Z) :
  l ≠ [] →
  ∃ m, JS.Math_min (JS.Fin <$> l) = JS.Fin m ∧ m ∈ l ∧ ∀ v, v ∈ l → m ≤ v.
Proof.
  induction l as [|x l IH]; [done|]. intros _.
  destruct l as [|y l].
  - exists x. split_and!; [done|by left|].
    intros v ->%list_elem_of_singleton. lia.
  - destruct IH as (m & Hm & Hin & Hle); [done|].
    change (JS.Math_min (JS.Fin <$> x :: y :: l))
      with (JS.min2 (JS.Fin x) (JS.Math_min (JS.Fin <$> y :: l))).
    rewrite Hm. simpl. exists (Z.min x m). split_and!; [done| |].
    + destruct (Z.min_spec x m) as [[_ ->]|[_ ->]]; [by left|by right].
    + intros v [->|Hv]%elem_of_cons; [lia|]. specialize (Hle v Hv). lia.
Qed.

Lemma Math_max_Fin (l : list Z) :
  l ≠ [] →
  ∃ m, JS.Math_max (JS.Fin <$> l) = JS.Fin m ∧ m ∈ l ∧ ∀ v, v ∈ l → v ≤ m.
Proof.
  induction l as [|x l IH]; [done|]. intros _.
  destruct l as [|y l].
  - exists x. split_and!; [done|by left|].
    intros v ->%list_elem_of_singleton. lia.
  - destruct IH as (m & Hm & Hin & Hle); [done|].
    change (JS.Math_max (JS.Fin <$> x :: y :: l))
      with (JS.max2 (JS.Fin x) (JS.Math_max (JS.Fin <$> y :: l))).
    rewrite Hm. simpl. exists (Z.max x m). split_and!; [done| |].
    + destruct (Z.max_spec x m) as [[_ ->]|[_ ->]]; [by right|by left].
    + intros v [->|Hv]%elem_of_cons; [lia|]. specialize (Hle v Hv). lia.
Qed.

Lemma Object_values_fmap (o : gmap string Z) :
  Object_values (PlainObject o) = JS.Fin <$> (map_to_list o).*2.
Proof. unfold Object_values. by rewrite <-list_fmap_compose. Qed.

Lemma elem_of_values (o : gmap string Z) v :
  v ∈ (map_to_list o).*2 ↔ ∃ market, o !! market = Some v.
Proof.
  rewrite list_elem_of_fmap. split.
  - intros ([k w] & -> & Hkw). exists k. by apply elem_of_map_to_list.
  - intros (k & Hk). exists (k, v). split; [done|]. by apply elem_of_map_to_list.
Qed.

Lemma values_nonempty (o : gmap string Z) : o ≠ ∅ → (map_to_list o).*2 ≠ [].
Proof.
  intros Ho Hnil. apply Ho, map_to_list_empty_iff.
  by apply fmap_nil_inv in Hnil.
Qed.

Lemma local_min_price_priced p :
  priced p → ∃ m, local_min_price p = JS.Fin m ∧ lowest_price p m.
Proof.
  intros Hp. unfold local_min_price. rewrite Object_values_fmap.
  destruct (Math_min_Fin _ (values_nonempty _ Hp)) as (m & Hm & Hin & Hle).
  exists m. split; [done|]. split.
  - by apply elem_of_values.
  - intros market v Hv. apply Hle, elem_of_values. eauto.
Qed.

Lemma max_price_priced p :
  priced p →
  ∃ m, JS.Math_max (Object_values (PlainObject (prices p))) = JS.Fin m
       ∧ highest_price p m.
Proof.
  intros Hp. rewrite Object_values_fmap.
  destruct (Math_max_Fin _ (values_nonempty _ Hp)) as (m & Hm & Hin & Hle).
  exists m. split; [done|]. split.
  - by apply elem_of_values.
  - intros market v Hv. apply Hle, elem_of_values. eauto.
Qed.

Lemma local_min_price_unpriced p : unpriced p → local_min_price p = JS.PosInf.
Proof.
  unfold unpriced, local_min_price, Object_values. intros ->.
  by rewrite map_to_list_empty.
Qed.

Lemma local_price_diff_priced p :
  priced p → ∃ d, local_price_diff p = JS.Fin d ∧ spread p d.
Proof.
  intros Hp. unfold local_price_diff.
  destruct (local_min_price_priced p Hp) as (lo & Hlo & Hlowest).
  destruct (max_price_priced p Hp) as (hi & Hhi & Hhighest).
  unfold local_min_price in Hlo. rewrite Hlo, Hhi. simpl.
  exists (hi - lo). split; [done|]. by exists lo, hi.
Qed.

Lemma local_price_diff_unpriced p : unpriced p → local_price_diff p = JS.NegInf.
Proof.
  unfold unpriced, local_price_diff, Object_values. intros ->.
  by rewrite map_to_list_empty.
Qed.

Lemma priced_or_unpriced p : {priced p} + {unpriced p}.
Proof.
  unfold priced, unpriced.
  destruct (decide (prices p = ∅)); [by right|by left].
Qed.

Lemma local_min_price_not_NaN p : local_min_price p ≠ JS.NaN.
Proof.
  destruct (priced_or_unpriced p) as [Hp|Hp].
  - destruct (local_min_price_priced p Hp) as (m & -> & _). done.
  - by rewrite local_min_price_unpriced.
Qed.

Lemma local_price_diff_not_NaN p : local_price_diff p ≠ JS.NaN.
Proof.
  destruct (priced_or_unpriced p) as [Hp|Hp].
  - destruct (local_price_diff_priced p Hp) as (m & -> & _). done.
  - by rewrite local_price_diff_unpriced.
Qed.

Lemma lowest_price_unique p m m' :
  lowest_price p m → lowest_price p m' → m = m'.
Proof.
  intros [[k Hk] Hle] [[k' Hk'] Hle'].
  specialize (Hle _ _ Hk'). specialize (Hle' _ _ Hk). lia.
Qed.

Lemma highest_price_unique p m m' :
  highest_price p m → highest_price p m' → m = m'.
Proof.
  intros [[k Hk] Hle] [[k' Hk'] Hle'].
  specialize (Hle _ _ Hk'). specialize (Hle' _ _ Hk). lia.
Qed.

(** ** The comparators of the provider are consistent *)

Lemma keeps_before_cheapest a b :
  keeps_before sortFunctions_cheapest a b ↔ num_le (local_min_price a) (local_min_price b).
Proof. apply gt0_sub; apply local_min_price_not_NaN. Qed.

Lemma keeps_before_highest_different a b :
  keeps_before sortFunctions_highest_different a b
  ↔ num_le (local_price_diff b) (local_price_diff a).
Proof. apply gt0_sub; apply local_price_diff_not_NaN. Qed.

Lemma ranked_cheapest_sorted db :
  StronglySorted (λ a b, num_le (local_min_price a) (local_min_price b))
    (JS.Array_sort sortFunctions_cheapest db).
Proof.
  eapply StronglySorted_weaken; [|apply Array_sort_sorted].
  - intros a b _ _. apply keeps_before_cheapest.
  - intros a b. apply gt0_sub_asym; apply local_min_price_not_NaN.
  - intros a b c. rewrite !keeps_before_cheapest. apply num_le_trans.
Qed.

Lemma ranked_highest_different_sorted db :
  StronglySorted (λ a b, num_le (local_price_diff b) (local_price_diff a))
    (JS.Array_sort sortFunctions_highest_different db).
Proof.
  eapply StronglySorted_weaken; [|apply Array_sort_sorted].
  - intros a b _ _. apply keeps_before_highest_different.
  - intros a b. apply gt0_sub_asym; apply local_price_diff_not_NaN.
  - intros a b c. rewrite !keeps_before_highest_different.
    intros ??. by eapply num_le_trans.
Qed.

Lemma num_le_cheaper_or_equal a b :
  priced a → priced b →
  num_le (local_min_price a) (local_min_price b) → cheaper_or_equal a b.
Proof.
  intros (ma & Ha & Hla)%local_min_price_priced (mb & Hb & Hlb)%local_min_price_priced.
  rewrite Ha, Hb. simpl. intros Hle. by exists ma, mb.
Qed.

Lemma num_le_spread_at_least a b :
  priced a → priced b →
  num_le (local_price_diff b) (local_price_diff a) → spread_at_least a b.
Proof.
  intros (da & Ha & Hsa)%local_price_diff_priced (d & Hb & Hsb)%local_price_diff_priced.
  rewrite Ha, Hb. simpl. intros Hle. by exists da, d.
Qed.

(** ** The comparators of the controller

    [Object.values] finds no property on the [Map] that [toObject()]
    returns, so [Math.min()] is [Infinity] and [Math.max()] is [-Infinity]
    for every product, and both comparators answer [NaN]. *)

Lemma min_price_Infinity p : min_price p = JS.PosInf.
Proof. done. Qed.

Lemma price_diff_minus_Infinity p : price_diff p = JS.NegInf.
Proof. done. Qed.

Lemma compare_cheapest_NaN a b : compare_cheapest a b = JS.NaN.
Proof. done. Qed.

Lemma compare_highest_different_NaN a b :
  compare_highest_different a b = JS.NaN.
Proof. done. Qed.

(** A comparator that never answers a positive number moves nothing. *)
Lemma Array_sort_never_positive {A} (comparefn : A → A → JS.number) l :
  (∀ x y, JS.gt0 (comparefn x y) = false) → JS.Array_sort comparefn l = l.
Proof.
  intros Hc. induction l as [|x l IH]; [done|].
  rewrite Array_sort_cons, IH. destruct l as [|y l]; [done|].
  simpl. by rewrite Hc.
Qed.

(** ** The branches of the [switch] *)

Lemma top_products_cheapest store db limit :
  top_products store db "cheapest" limit = JS.Array_slice0 limit db.
Proof.
  trans (JS.Array_slice0 limit (JS.Array_sort compare_cheapest db)); [done|].
  by rewrite Array_sort_never_positive.
Qed.

Lemma top_products_highest_different store db limit :
  top_products store db "highest different" limit = JS.Array_slice0 limit db.
Proof.
  trans (JS.Array_slice0 limit (JS.Array_sort compare_highest_different db));
    [done|].
  by rewrite Array_sort_never_positive.
Qed.

Lemma top_products_default store db criteria limit :
  criteria ∉ recognized →
  top_products store db criteria limit
  = cursor_limit limit (find_sort store name_asc db).
Proof.
  intros Hc. unfold top_products.
  repeat case_decide; try done; subst; destruct Hc; set_solver.
Qed.

Lemma top_products_take store db criteria limit :
  ∃ n ranked, top_products store db criteria limit = take n ranked
              ∧ ranked ≡ₚ db.
Proof.
  unfold top_products. repeat case_decide.
  - destruct (Array_slice0_take limit (JS.Array_sort compare_cheapest db)) as [n ->].
    eexists _, _. split; [done|]. apply Array_sort_perm.
  - destruct (Array_slice0_take limit
                (JS.Array_sort compare_highest_different db)) as [n ->].
    eexists _, _. split; [done|]. apply Array_sort_perm.
  - destruct (cursor_limit_take limit (find_sort store popularity_desc db)) as [n ->].
    eexists _, _. split; [done|]. apply find_sort_perm.
  - destruct (cursor_limit_take limit (find_sort store rating_desc db)) as [n ->].
    eexists _, _. split; [done|]. apply find_sort_perm.
  - destruct (cursor_limit_take limit (find_sort store name_asc db)) as [n ->].
    eexists _, _. split; [done|]. apply find_sort_perm.
Qed.

Lemma top_products_length_pos store db criteria n :
  0 < n →
  Z.of_nat (length (top_products store db criteria (JS.Fin n)))
  = Z.min n (Z.of_nat (length db)).
Proof.
  intros Hn. unfold top_products. repeat case_decide.
  - by rewrite Array_slice0_length_pos, Array_sort_length.
  - by rewrite Array_slice0_length_pos, Array_sort_length.
  - by rewrite cursor_limit_length_pos, find_sort_perm.
  - by rewrite cursor_limit_length_pos, find_sort_perm.
  - by rewrite cursor_limit_length_pos, find_sort_perm.
Qed.

Lemma parseInt_cases v : JS.parseInt v = JS.NaN ∨ ∃ z, JS.parseInt v = JS.Fin z.
Proof.
  unfold JS.parseInt, JS.parseInt_string.
  destruct (JS.strip_sign _) as [sign s1].
  destruct (JS.strip_hex_prefix _) as [radix s2].
  destruct (JS.parse_digits _ _ _); eauto.
Qed.

Lemma limit_of_cases q :
  (limit_of q = JS.Fin 10
   ∧ (JS.parseInt (q_limit q) = JS.NaN ∨ JS.parseInt (q_limit q) = JS.Fin 0))
  ∨ ∃ z, z ≠ 0 ∧ JS.parseInt (q_limit q) = JS.Fin z ∧ limit_of q = JS.Fin z.
Proof.
  unfold limit_of. destruct (parseInt_cases (q_limit q)) as [->|[z ->]].
  - left. eauto.
  - destruct (decide (z = 0)) as [->|Hz].
    + left. eauto.
    + right. exists z. split_and!; [done..|].
      unfold JS.or_else. simpl. by destruct (Z.eqb_spec z 0).
Qed.

(** ** Ranking: the claims *)

(** C1, as the code has it: under ["cheapest"] and
    ["highest different"] no product is excluded and the request does not
    fail.  The answer is a slice, from the start, of a reordering of the
    whole collection; with a positive limit [n] it has
    [min n (number of products)] elements, and when the limit is not below
    the number of products it holds every product of the collection, those
    with an empty price map included. *)
Theorem unpriced_products_not_excluded store db q :
  criteria_of q = "cheapest" ∨ criteria_of q = "highest different" →
  ∃ ranked answer,
    getTopProducts store (Some db) q = Json 200 answer
    ∧ answer = JS.Array_slice0 (limit_of q) ranked
    ∧ ranked ≡ₚ db
    ∧ (∀ n, limit_of q = JS.Fin n → 0 < n →
         Z.of_nat (length answer) = Z.min n (Z.of_nat (length db)))
    ∧ (∀ n, limit_of q = JS.Fin n → Z.of_nat (length db) ≤ n →
         answer ≡ₚ db ∧ ∀ p, p ∈ db → unpriced p → p ∈ answer).
Proof.
  intros Hc. exists db, (JS.Array_slice0 (limit_of q) db).
  assert (top_products store db (criteria_of q) (limit_of q)
          = JS.Array_slice0 (limit_of q) db) as Htop.
  { destruct Hc as [-> | ->];
      [apply top_products_cheapest|apply top_products_highest_different]. }
  unfold getTopProducts. rewrite Htop. split_and!; [done..| |].
  - intros n -> Hn. by apply Array_slice0_length_pos.
  - intros n -> Hn. by rewrite Array_slice0_all.
Qed.

(** C2, as the code has it: the limit in force is the parsed parameter,
    or 10 when the parameter is absent, not a number or 0; with a positive
    limit [n] the answer has [min n (number of products)] elements, for
    every criterion. *)
Theorem limit_bound store db q :
  ∃ n body,
    limit_of q = JS.Fin n
    ∧ getTopProducts store (Some db) q = Json 200 body
    ∧ (JS.parseInt (q_limit q) = JS.NaN ∨ JS.parseInt (q_limit q) = JS.Fin 0
       → n = 10)
    ∧ (∀ z, JS.parseInt (q_limit q) = JS.Fin z → z ≠ 0 → n = z)
    ∧ (0 < n → Z.of_nat (length body) = Z.min n (Z.of_nat (length db))).
Proof.
  unfold getTopProducts.
  destruct (limit_of_cases q) as [[Hl Hp]|(z & Hz & Hp & Hl)]; rewrite Hl.
  - exists 10, (top_products store db (criteria_of q) (JS.Fin 10)).
    split_and!; [done..| |].
    + intros z' Hz' Hne. destruct Hp as [Hp|Hp]; congruence.
    + apply top_products_length_pos.
  - exists z, (top_products store db (criteria_of q) (JS.Fin z)).
    split_and!; [done|done| | |].
    + intros [Hp'|Hp']; congruence.
    + congruence.
    + apply top_products_length_pos.
Qed.

(** C4, as the code has it: no criterion makes the request fail.  A
    criterion that is not empty and is none of ["cheapest"],
    ["highest different"], ["most selected"], ["highest rated"] yields the
    products in ascending order of [name], cut to the limit (with a
    positive limit [n], the first [min n (number of products)] of them),
    and so any two such criteria give the same answer.  An absent or empty
    criterion is replaced by ["cheapest"]. *)
Theorem unrecognized_criterion_falls_to_default store db c limit :
  c ≠ "" → c ∉ recognized →
  let q := {| q_criteria := Some c; q_limit := limit |} in
  (∃ sorted answer,
     getTopProducts store (Some db) q = Json 200 answer
     ∧ answer = cursor_limit (limit_of q) sorted
     ∧ sorted = find_sort store name_asc db
     ∧ sorted ≡ₚ db
     ∧ StronglySorted (λ a b, String.le (name a) (name b)) sorted
     ∧ StronglySorted (λ a b, String.le (name a) (name b)) answer
     ∧ (∀ n, limit_of q = JS.Fin n → 0 < n →
          answer = take (Z.to_nat n) sorted
          ∧ Z.of_nat (length answer) = Z.min n (Z.of_nat (length db))))
  ∧ (∀ c', c' ≠ "" → c' ∉ recognized →
       getTopProducts store (Some db) {| q_criteria := Some c'; q_limit := limit |}
       = getTopProducts store (Some db) q)
  ∧ (∀ q', q_limit q' = limit →
       q_criteria q' = None ∨ q_criteria q' = Some "" →
       getTopProducts store (Some db) q'
       = getTopProducts store (Some db)
           {| q_criteria := Some "cheapest"; q_limit := limit |}).
Proof.
  intros Hne Hc q.
  assert (∀ c0, c0 ≠ "" → c0 ∉ recognized →
            getTopProducts store (Some db)
              {| q_criteria := Some c0; q_limit := limit |}
            = Json 200
                (cursor_limit (limit_of q) (find_sort store name_asc db)))
    as Hdefault.
  { intros c0 Hne0 Hc0. unfold getTopProducts.
    assert (criteria_of {| q_criteria := Some c0; q_limit := limit |} = c0)
      as -> by by destruct c0.
    by rewrite top_products_default. }
  split_and!.
  - exists (find_sort store name_asc db),
      (cursor_limit (limit_of q) (find_sort store name_asc db)).
    split_and!; [by apply Hdefault|done|done|apply find_sort_perm| | |].
    + apply (find_sort_sorted store name_asc).
    + destruct (cursor_limit_take (limit_of q) (find_sort store name_asc db))
        as [n ->].
      apply StronglySorted_take, (find_sort_sorted store name_asc).
    + intros n -> Hn. split.
      * simpl. by destruct (Z.eqb_spec n 0); [lia|rewrite Z.abs_eq by lia].
      * by rewrite cursor_limit_length_pos, find_sort_perm.
  - intros c' Hne' Hc'. unfold q. by rewrite !Hdefault.
  - intros [c' l'] Hl Hq'. simpl in *. subst l'.
    unfold getTopProducts, criteria_of, limit_of. simpl.
    by destruct Hq' as [->| ->].
Qed.

(** ** Ranking: the examples of the specification, run on the code *)

Lemma prod_A_priced : priced prod_A.
Proof. apply (bool_decide_unpack _). by vm_compute. Defined.

Lemma prod_B_priced : priced prod_B.
Proof. apply (bool_decide_unpack _). by vm_compute. Defined.

Lemma wide_Z_priced : priced wide_Z.
Proof. apply (bool_decide_unpack _). by vm_compute. Defined.

Lemma lowest_price_of (p : Product) (m : Z) :
  local_min_price p = JS.Fin m → priced p → lowest_price p m.
Proof.
  intros Hm (m' & Hm' & Hlowest)%local_min_price_priced.
  rewrite Hm in Hm'. by injection Hm' as <-.
Qed.

Lemma spread_of (p : Product) (d : Z) :
  local_price_diff p = JS.Fin d → priced p → spread p d.
Proof.
  intros Hd (d' & Hd' & Hspread)%local_price_diff_priced.
  rewrite Hd in Hd'. by injection Hd' as <-.
Qed.

(** [rank([A, B, C], "cheapest", 10)] holds [C], whose price map is
    empty: the answer is [[A, B, C]]. *)
Lemma cheapest_keeps_unpriced_product :
  getTopProducts insertion_order_store (Some [prod_A; prod_B; prod_C])
    (query "cheapest" "10")
  = Json 200 [prod_A; prod_B; prod_C]
  ∧ unpriced prod_C.
Proof. split; reflexivity. Qed.

Lemma unpriced_products_not_excluded_witness :
  (criteria_of (query "highest different" "5") = "cheapest"
   ∨ criteria_of (query "highest different" "5") = "highest different")
  ∧ getTopProducts insertion_order_store (Some [prod_C; prod_A; prod_B])
      (query "highest different" "5")
    = Json 200 [prod_C; prod_A; prod_B]
  ∧ ∃ ranked answer,
      getTopProducts insertion_order_store (Some [prod_C; prod_A; prod_B])
        (query "highest different" "5")
      = Json 200 answer
      ∧ answer = JS.Array_slice0 (limit_of (query "highest different" "5")) ranked
      ∧ ranked ≡ₚ [prod_C; prod_A; prod_B]
      ∧ (∀ n, limit_of (query "highest different" "5") = JS.Fin n → 0 < n →
           Z.of_nat (length answer)
           = Z.min n (Z.of_nat (length [prod_C; prod_A; prod_B])))
      ∧ (∀ n, limit_of (query "highest different" "5") = JS.Fin n →
           Z.of_nat (length [prod_C; prod_A; prod_B]) ≤ n →
           answer ≡ₚ [prod_C; prod_A; prod_B]
           ∧ ∀ p, p ∈ [prod_C; prod_A; prod_B] → unpriced p → p ∈ answer).
Proof.
  split_and!; [right; reflexivity|reflexivity|].
  apply (unpriced_products_not_excluded insertion_order_store
           [prod_C; prod_A; prod_B] (query "highest different" "5")).
  right; reflexivity.
Defined.

(** A limit of [0] is replaced by 10, and a negative limit drops
    products from the end of the ranking: neither answer is empty. *)
Lemma nonpositive_limit_not_empty :
  (∃ body,
     getTopProducts insertion_order_store (Some [prod_A; prod_B; prod_C])
       (query "cheapest" "0") = Json 200 body
     ∧ length body = 3%nat)
  ∧ (∃ body,
     getTopProducts insertion_order_store (Some [prod_A; prod_B; prod_C])
       (query "cheapest" "-1") = Json 200 body
     ∧ length body = 2%nat).
Proof. split; eexists; split; reflexivity. Qed.

Lemma limit_bound_witness :
  ∃ n body,
    limit_of (query "most selected" "2") = JS.Fin n
    ∧ getTopProducts insertion_order_store (Some [prod_A; prod_B; prod_C])
        (query "most selected" "2") = Json 200 body
    ∧ (JS.parseInt (Some "2") = JS.NaN ∨ JS.parseInt (Some "2") = JS.Fin 0
       → n = 10)
    ∧ (∀ z, JS.parseInt (Some "2") = JS.Fin z → z ≠ 0 → n = z)
    ∧ (0 < n → Z.of_nat (length body) = Z.min n 3).
Proof.
  exact (limit_bound insertion_order_store [prod_A; prod_B; prod_C]
           (query "most selected" "2")).
Defined.

(** An empty criterion is not ranked by name: it is handled as
    ["cheapest"], and the answer for the collection [[Z, B]] starts with
    [Z], while a criterion that is not recognised puts [B] first. *)
Lemma empty_criterion_not_ranked_by_name :
  getTopProducts insertion_order_store (Some [wide_Z; prod_B]) (query "" "10")
  = Json 200 [wide_Z; prod_B]
  ∧ getTopProducts insertion_order_store (Some [wide_Z; prod_B])
      (query "not_a_real_criterion" "10")
    = Json 200 [prod_B; wide_Z]
  ∧ name wide_Z = "Z" ∧ name prod_B = "B"
  ∧ ¬ String.le (name wide_Z) (name prod_B).
Proof.
  split_and!; [reflexivity..|].
  apply (bool_decide_unpack _). by vm_compute.
Qed.

Lemma unrecognized_criterion_witness :
  "not_a_real_criterion" ≠ ""
  ∧ ("not_a_real_criterion" ∉ recognized)
  ∧ getTopProducts insertion_order_store (Some [prod_C; prod_B; prod_A])
      (query "not_a_real_criterion" "2")
    = Json 200 [prod_A; prod_B]
  ∧ (∀ c', c' ≠ "" → c' ∉ recognized →
       getTopProducts insertion_order_store (Some [prod_C; prod_B; prod_A])
         {| q_criteria := Some c'; q_limit := Some "2" |}
       = getTopProducts insertion_order_store (Some [prod_C; prod_B; prod_A])
           (query "not_a_real_criterion" "2"))
  ∧ (∀ q', q_limit q' = Some "2" →
       q_criteria q' = None ∨ q_criteria q' = Some "" →
       getTopProducts insertion_order_store (Some [prod_C; prod_B; prod_A]) q'
       = getTopProducts insertion_order_store (Some [prod_C; prod_B; prod_A])
           (query "cheapest" "2")).
Proof.
  assert ("not_a_real_criterion" ≠ "") as Hne by discriminate.
  assert ("not_a_real_criterion" ∉ recognized) as Hc.
  { apply (bool_decide_unpack _). by vm_compute. }
  destruct (unrecognized_criterion_falls_to_default insertion_order_store
              [prod_C; prod_B; prod_A] "not_a_real_criterion" (Some "2")
              Hne Hc) as (_ & Hsame & Hempty).
  split_and!; [exact Hne|exact Hc|reflexivity|exact Hsame|exact Hempty].
Defined.

(** C5, the failing input: every product has prices, [A] has the minimum
    price 10 and [B] the minimum price 5, and ["cheapest"] answers with
    [A] before [B].  The answer is the collection in the order in which
    it was fetched. *)
Lemma cheapest_not_ascending :
  getTopProducts insertion_order_store (Some [prod_A; prod_B])
    (query "cheapest" "10")
  = Json 200 [prod_A; prod_B]
  ∧ priced prod_A ∧ priced prod_B
  ∧ lowest_price prod_A 10 ∧ lowest_price prod_B 5
  ∧ ¬ cheaper_or_equal prod_A prod_B.
Proof.
  assert (lowest_price prod_A 10) as HA
    by (apply lowest_price_of; [reflexivity|apply prod_A_priced]).
  assert (lowest_price prod_B 5) as HB
    by (apply lowest_price_of; [reflexivity|apply prod_B_priced]).
  split_and!;
    [reflexivity|apply prod_A_priced|apply prod_B_priced|exact HA|exact HB|].
  intros (ma & mb & Ha & Hb & Hle).
  rewrite (lowest_price_unique _ _ _ Ha HA) in Hle.
  rewrite (lowest_price_unique _ _ _ Hb HB) in Hle. lia.
Qed.

(** C6, the failing input: every product has prices, [B] has the spread
    0 and [Z] the spread 10, and the answer has [B] before [Z], under the
    criterion ["highest different"] that the controller matches (the
    collection comes back in the order in which it was fetched) and under
    the spelling ["highest_different"], which it does not match (the
    collection comes back ordered by name). *)
Lemma highest_different_not_descending :
  getTopProducts insertion_order_store (Some [prod_B; wide_Z])
    (query "highest different" "10")
  = Json 200 [prod_B; wide_Z]
  ∧ getTopProducts insertion_order_store (Some [prod_B; wide_Z])
      (query "highest_different" "10")
    = Json 200 [prod_B; wide_Z]
  ∧ priced prod_B ∧ priced wide_Z
  ∧ spread prod_B 0 ∧ spread wide_Z 10
  ∧ ¬ spread_at_least prod_B wide_Z.
Proof.
  assert (spread prod_B 0) as HB
    by (apply spread_of; [reflexivity|apply prod_B_priced]).
  assert (spread wide_Z 10) as HZ
    by (apply spread_of; [reflexivity|apply wide_Z_priced]).
  split_and!;
    [reflexivity|reflexivity|apply prod_B_priced|apply wide_Z_priced
    |exact HB|exact HZ|].
  intros (da & dz & (lo & hi & Hlo & Hhi & ->) & (lo' & hi' & Hlo' & Hhi' & ->)
          & Hle).
  destruct HB as (l1 & h1 & Hl1 & Hh1 & H1).
  destruct HZ as (l2 & h2 & Hl2 & Hh2 & H2).
  rewrite (lowest_price_unique _ _ _ Hlo Hl1),
    (highest_price_unique _ _ _ Hhi Hh1),
    (lowest_price_unique _ _ _ Hlo' Hl2),
    (highest_price_unique _ _ _ Hhi' Hh2) in Hle.
  lia.
Qed.

(** ** [getSupermarketTotals] *)

(** The example of the specification: [{x: 25, y: 16}], and the empty
    mapping for the empty cart. *)
Lemma supermarket_totals_example :
  getSupermarketTotals (provider example_cart)
  = {[ "x" := Amount 25; "y" := Amount 16 ]}
  ∧ getSupermarketTotals (provider []) = ∅.
Proof. split; reflexivity. Qed.

(** C3, the failing input: the cart of the example with the supermarket
    [x] named [constructor].  The sum of price × quantity over the items
    that list it is 25, but [totals.constructor] is not created at 0: the
    member inherited from [Object.prototype] is read, and the entry
    becomes a string, the text of that function followed by ["20"] and
    ["5"].  The supermarket [y] is mapped to 16.  A supermarket named
    [__proto__] gets no entry at all. *)
Lemma supermarket_totals_inherited_name :
  getSupermarketTotals
    (provider [line 1 [("constructor", 10); ("y", 8)] 2;
               line 2 [("constructor", 5)] 1])
  = {[ "constructor" := Text "constructor" [20; 5]; "y" := Amount 16 ]}
  ∧ market_total "constructor"
      [line 1 [("constructor", 10); ("y", 8)] 2; line 2 [("constructor", 5)] 1]
    = 25
  ∧ getSupermarketTotals (provider [line 1 [("__proto__", 10)] 2]) = ∅
  ∧ market_total "__proto__" [line 1 [("__proto__", 10)] 2] = 20.
Proof. split_and!; reflexivity. Qed.

(** ** The operations on the cart *)

Lemma Array_findIndex_spec {A} (f : A → bool) l :
  (JS.Array_findIndex f l = -1 ∧ Forall (λ x, f x = false) l)
  ∨ (∃ l1 x l2,
       l = l1 ++ x :: l2 ∧ Forall (λ y, f y = false) l1 ∧ f x = true
       ∧ JS.Array_findIndex f l = Z.of_nat (length l1)).
Proof.
  induction l as [|x l IH]; simpl.
  - left. by split.
  - destruct (f x) eqn:Hx.
    + right. by exists [], x, l.
    + destruct IH as [[-> Hall]|(l1 & y & l2 & -> & H1 & Hy & ->)].
      * left. split; [done|by constructor].
      * right. exists (x :: l1), y, l2.
        destruct (Z.ltb_spec (Z.of_nat (length l1)) 0); [lia|].
        split_and!; [done|by constructor|done|]. simpl length. lia.
Qed.

Lemma with_quantity_id q item : item_id (with_quantity q item) = item_id item.
Proof. done. Qed.

(** The two outcomes of [addToCart]. *)
Lemma addToCart_cases product qty st :
  ((NumId (id product) ∉ cart_ids (cart st))
   ∧ cart (addToCart product qty st)
     = cart st ++ [item_of_product product (default 1 qty)])
  ∨ (∃ l1 item l2,
       cart st = l1 ++ item :: l2
       ∧ (NumId (id product) ∉ cart_ids l1)
       ∧ item_id item = NumId (id product)
       ∧ cart (addToCart product qty st)
         = l1 ++ with_quantity (quantity item + default 1 qty) item :: l2).
Proof.
  unfold addToCart.
  destruct (Array_findIndex_spec
              (λ item, bool_decide (item_id item = NumId (id product)))
              (cart st))
    as [[-> Hall]|(l1 & item & l2 & Hcart & H1 & Hitem & ->)].
  - left. split; [|done].
    unfold cart_ids. rewrite list_elem_of_fmap. intros (item & Hid & Hin).
    rewrite Forall_forall in Hall. specialize (Hall item Hin).
    by apply bool_decide_eq_false in Hall.
  - right. exists l1, item, l2.
    apply bool_decide_eq_true in Hitem.
    destruct (Z.ltb_spec (-1) (Z.of_nat (length l1))); [|lia].
    split_and!; [done| |done|].
    + unfold cart_ids. rewrite list_elem_of_fmap. intros (i & Hid & Hin).
      rewrite Forall_forall in H1. specialize (H1 i Hin).
      by apply bool_decide_eq_false in H1.
    + simpl. rewrite Hcart, Nat2Z.id.
      replace (length l1) with (length l1 + 0)%nat by lia.
      by rewrite alter_app_r.
Qed.

Lemma elem_of_cart_ids_app l1 item l2 :
  item_id item ∈ cart_ids (l1 ++ item :: l2).
Proof.
  unfold cart_ids. rewrite fmap_app, elem_of_app. right. by left.
Qed.

Lemma addToCart_ids_distinct product qty st :
  NoDup (cart_ids (cart st)) →
  NoDup (cart_ids (cart (addToCart product qty st))).
Proof.
  intros Hnd.
  destruct (addToCart_cases product qty st)
    as [[Hnew ->]|(l1 & item & l2 & Hcart & _ & _ & ->)].
  - unfold cart_ids in *. rewrite fmap_app. apply NoDup_app.
    split_and!; [done| |apply NoDup_singleton].
    intros x Hx ->%list_elem_of_singleton. done.
  - rewrite Hcart in Hnd. unfold cart_ids in *.
    by rewrite fmap_app, fmap_cons, with_quantity_id, <-fmap_cons, <-fmap_app.
Qed.

Lemma removeFromCart_ids_distinct productId st :
  NoDup (cart_ids (cart st)) →
  NoDup (cart_ids (cart (removeFromCart productId st))).
Proof.
  intros Hnd. eapply sublist_NoDup; [exact Hnd|].
  apply fmap_sublist, sublist_filter.
Qed.

Lemma updateQuantity_ids productId q st :
  cart_ids (cart (updateQuantity productId q st)) = cart_ids (cart st).
Proof.
  unfold updateQuantity. destruct (q <? 1); [done|].
  unfold cart_ids. simpl. rewrite <-list_fmap_compose.
  apply list_fmap_ext. intros i item _. simpl. by case_decide.
Qed.


Lemma addToCart_quantities product qty st :
  1 ≤ default 1 qty →
  quantities_ok (cart st) → quantities_ok (cart (addToCart product qty st)).
Proof.
  intros Hq Hok. unfold quantities_ok in *.
  destruct (addToCart_cases product qty st)
    as [[_ ->]|(l1 & item & l2 & Hcart & _ & _ & ->)].
  - apply Forall_app. split; [done|]. by repeat constructor.
  - rewrite Hcart in Hok. apply Forall_app in Hok as [H1 H2].
    apply Forall_cons in H2 as [Hitem H2].
    apply Forall_app. split; [done|]. constructor; [simpl; lia|done].
Qed.

Lemma removeFromCart_quantities productId st :
  quantities_ok (cart st) → quantities_ok (cart (removeFromCart productId st)).
Proof.
  unfold quantities_ok. rewrite !Forall_forall. intros Hok item Hin.
  apply list_elem_of_filter in Hin as [_ Hin]. by apply Hok.
Qed.

Lemma updateQuantity_quantities productId q st :
  quantities_ok (cart st) → quantities_ok (cart (updateQuantity productId q st)).
Proof.
  intros Hok. unfold updateQuantity.
  destruct (Z.ltb_spec q 1) as [|Hq]; [done|].
  unfold quantities_ok in *. simpl. apply Forall_fmap.
  eapply Forall_impl; [exact Hok|].
  intros item Hitem. simpl. by case_decide.
Qed.

Lemma item_validate_quantity item :
  item_validate item = true → 1 ≤ s_quantity item.
Proof.
  unfold item_validate. rewrite !andb_true_iff, Z.leb_le. tauto.
Qed.

Lemma CartSchema_validate_quantities doc :
  CartSchema_validate doc = true →
  Forall (λ item, 1 ≤ s_quantity item) (cart_items doc).
Proof.
  unfold CartSchema_validate. rewrite !andb_true_iff, forallb_forall.
  intros [_ Hall]. apply Forall_forall. intros item Hin.
  by apply item_validate_quantity, Hall, list_elem_of_In.
Qed.

Lemma save_validated doc carts saved carts' :
  save doc carts = Some (saved, carts') →
  saved = doc ∧ carts' = carts ++ [doc] ∧ CartSchema_validate doc = true.
Proof.
  unfold save. destruct (CartSchema_validate doc); [|done].
  by intros [= <- <-].
Qed.


(** ** The cart: the claims *)




(** C9: in a cart whose ids are pairwise distinct, [addToCart] of a
    product whose id is present adds the amount to the quantity of that
    item, leaves its other fields and the other items as they are and
    appends nothing; otherwise it appends one item, which has the id, the
    name, the category and the prices of the product and that quantity;
    after [addToCart], [removeFromCart], [updateQuantity] and [clearCart]
    the ids are still pairwise distinct.  [loadCart] puts the items it is
    given in place of the cart: the ids are distinct afterwards when those
    of the items are. *)
Theorem cart_ids_stay_distinct st :
  NoDup (cart_ids (cart st)) →
  (∀ product qty,
     NoDup (cart_ids (cart (addToCart product qty st)))
     ∧ (NumId (id product) ∈ cart_ids (cart st) →
          ∃ l1 item l2 item',
            cart st = l1 ++ item :: l2
            ∧ item_id item = NumId (id product)
            ∧ cart (addToCart product qty st) = l1 ++ item' :: l2
            ∧ quantity item' = quantity item + default 1 qty
            ∧ item_id item' = item_id item
            ∧ item_name item' = item_name item
            ∧ item_category item' = item_category item
            ∧ item_prices item' = item_prices item
            ∧ length (cart (addToCart product qty st)) = length (cart st))
     ∧ (NumId (id product) ∉ cart_ids (cart st) →
          ∃ item',
            cart (addToCart product qty st) = cart st ++ [item']
            ∧ item_id item' = NumId (id product)
            ∧ quantity item' = default 1 qty
            ∧ item_name item' = name product
            ∧ item_category item' = Some (category product)
            ∧ item_prices item' = prices product
            ∧ length (cart (addToCart product qty st))
              = S (length (cart st))))
  ∧ (∀ productId, NoDup (cart_ids (cart (removeFromCart productId st))))
  ∧ (∀ productId q, NoDup (cart_ids (cart (updateQuantity productId q st))))
  ∧ NoDup (cart_ids (cart (clearCart st)))
  ∧ (∀ items, NoDup (cart_ids items) →
       NoDup (cart_ids (cart (loadCart items st)))).
Proof.
  intros Hnd. split_and!; [| | | |done].
  - intros product qty. split_and!.
    + by apply addToCart_ids_distinct.
    + intros Hin.
      destruct (addToCart_cases product qty st)
        as [[Hnew _]|(l1 & item & l2 & Hcart & _ & Hid & Hadd)]; [done|].
      exists l1, item, l2,
        (with_quantity (quantity item + default 1 qty) item).
      split_and!; [done..|].
      rewrite Hadd, Hcart, !length_app. done.
    + intros Hnew.
      destruct (addToCart_cases product qty st)
        as [[_ Hadd]|(l1 & item & l2 & Hcart & _ & Hid & _)].
      * exists (item_of_product product (default 1 qty)).
        split_and!; [done..|].
        rewrite Hadd, length_app. simpl. lia.
      * destruct Hnew. rewrite Hcart, <-Hid. apply elem_of_cart_ids_app.
  - intros productId. by apply removeFromCart_ids_distinct.
  - intros productId q. by rewrite updateQuantity_ids.
  - constructor.
Qed.

Lemma cart_ids_stay_distinct_witness :
  NoDup (cart_ids (cart (provider example_cart)))
  ∧ cart (addToCart
            {| id := 2; name := "bread"; category := "bakery";
               prices := {[ "x" := 6 ]}; unit := "unit"; popularity := 0;
               rating := 0; ratingCount := 0 |}
            (Some 3) (provider example_cart))
    = [{| item_id := NumId 1; item_name := "item"; item_category := None;
          item_prices := {[ "x" := 10; "y" := 8 ]}; quantity := 2 |};
       {| item_id := NumId 2; item_name := "item"; item_category := None;
          item_prices := {[ "x" := 5 ]}; quantity := 4 |}]
  ∧ cart (addToCart
            {| id := 7; name := "bread"; category := "bakery";
               prices := {[ "x" := 6 ]}; unit := "unit"; popularity := 0;
               rating := 0; ratingCount := 0 |}
            (Some 3) (provider example_cart))
    = [{| item_id := NumId 1; item_name := "item"; item_category := None;
          item_prices := {[ "x" := 10; "y" := 8 ]}; quantity := 2 |};
       {| item_id := NumId 2; item_name := "item"; item_category := None;
          item_prices := {[ "x" := 5 ]}; quantity := 1 |};
       {| item_id := NumId 7; item_name := "bread";
          item_category := Some "bakery";
          item_prices := {[ "x" := 6 ]}; quantity := 3 |}]
  ∧ NoDup (cart_ids (cart (addToCart prod_A (Some 3) (provider example_cart))))
  ∧ NoDup (cart_ids (cart (removeFromCart (NumId 1) (provider example_cart)))).
Proof.
  assert (NoDup (cart_ids (cart (provider example_cart)))) as Hnd.
  { apply (bool_decide_unpack _). by vm_compute. }
  destruct (cart_ids_stay_distinct (provider example_cart) Hnd)
    as (Hadd & Hrem & _).
  split_and!; [exact Hnd|reflexivity|reflexivity|apply Hadd|apply Hrem].
Defined.

(** ** Saving a cart *)

Lemma post_cart_no_items now userId b carts :
  no_items (body_items b) →
  post_cart now userId b carts
  = (Message 400 "העגלה ריקה, לא ניתן לשמור", carts).
Proof.
  unfold post_cart. intros [->|[[t ->]| ->]]; simpl; [done| |done].
  by destruct t.
Qed.

Lemma route_post_cart_no_items jwt_verify now req carts :
  no_items (body_items (body req)) →
  (route_post_cart jwt_verify now req carts).2 = carts
  ∧ ∃ status message,
      (route_post_cart jwt_verify now req carts).1 = Message status message
      ∧ (status = 400 ∨ status = 401).
Proof.
  intros Hitems. unfold route_post_cart, authMiddleware.
  destruct (x_auth_token req) as [[|c tok]|].
  - split; [done|]. eexists _, _. split; [done|]. by right.
  - destruct (jwt_verify (String c tok)).
    + rewrite post_cart_no_items by done.
      split; [done|]. eexists _, _. split; [done|]. by left.
    + split; [done|]. eexists _, _. split; [done|]. by right.
  - split; [done|]. eexists _, _. split; [done|]. by right.
Qed.

Lemma saveCart_empty jwt_verify name w :
  cart (ui w) = [] →
  saveCart jwt_verify name w
  = (Return None,
     with_ui (setLoading false)
       (with_ui (setError (Some "Cannot save an empty cart"))
          (with_ui (setLoading true) w))).
Proof.
  intros Hcart. unfold saveCart, finally, try_catch.
  unfold mbind, Eff_bind, set_ui, get, mret, Eff_ret. simpl.
  by rewrite Hcart.
Qed.

(** C10: with an empty local cart [saveCart] returns [null], records the
    error and sends nothing to the server; a [POST /api/cart] whose
    [items] is missing, is not an array or is the empty array stores no
    cart, and its handler answers 400. *)
Theorem empty_cart_is_never_saved jwt_verify :
  (∀ w name, cart (ui w) = [] →
     ∃ w',
       saveCart jwt_verify name w = (Return None, w')
       ∧ error (ui w') = Some "Cannot save an empty cart"
       ∧ requests w' = requests w
       ∧ carts_db w' = carts_db w)
  ∧ (∀ now req carts, no_items (body_items (body req)) →
       (∀ userId,
          post_cart now userId (body req) carts
          = (Message 400 "העגלה ריקה, לא ניתן לשמור", carts))
       ∧ (∀ userId,
            @authMiddleware jwt_verify CartDoc req = inl userId →
            route_post_cart jwt_verify now req carts
            = (Message 400 "העגלה ריקה, לא ניתן לשמור", carts))
       ∧ (route_post_cart jwt_verify now req carts).2 = carts).
Proof.
  split.
  - intros w name Hcart. eexists. split; [by apply saveCart_empty|done].
  - intros now req carts Hitems. split_and!.
    + intros userId. by apply post_cart_no_items.
    + intros userId Hauth. unfold route_post_cart. rewrite Hauth.
      by apply post_cart_no_items.
    + by apply route_post_cart_no_items.
Qed.

Lemma empty_cart_is_never_saved_witness :
  (∃ w',
     saveCart demo_verify (Some "weekly") (client_world [])
     = (Return None, w')
     ∧ error (ui w') = Some "Cannot save an empty cart"
     ∧ requests w' = []
     ∧ carts_db w' = [])
  ∧ route_post_cart demo_verify 1700
      {| x_auth_token := Some "good-token";
         body := {| body_name := Some "weekly"; body_items := ItemsArray [] |} |}
      []
    = (Message 400 "העגלה ריקה, לא ניתן לשמור", []).
Proof.
  destruct (empty_cart_is_never_saved demo_verify) as [Hclient Hserver].
  split.
  - apply (Hclient (client_world []) (Some "weekly")). reflexivity.
  - apply (Hserver 1700 _ []) with (userId := "user-1").
    + right. right. reflexivity.
    + reflexivity.
Defined.

(** A cart with items is saved: the route answers 201 and the collection
    grows by the new document. *)
Lemma saveCart_example :
  ∃ doc w',
    saveCart demo_verify (Some "weekly") (client_world example_cart)
    = (Return (Some doc), w')
    ∧ carts_db w' = [doc]
    ∧ savedCarts (ui w') = [doc]
    ∧ cart_name doc = "weekly"
    ∧ s_quantity <$> cart_items doc = [2; 1]
    ∧ requests w' = ["GET /api/cart"; "POST /api/cart"]
    ∧ error (ui w') = None.
Proof. eexists _, _. split_and!; reflexivity. Qed.

(** * Further properties of the cart context *)

(** ** [addToCart] *)

Lemma Array_findIndex_first {A} (f : A → bool) l1 x l2 :
  Forall (λ y, f y = false) l1 → f x = true →
  JS.Array_findIndex f (l1 ++ x :: l2) = Z.of_nat (length l1).
Proof.
  intros Hl1 Hx. induction Hl1 as [|y l1 Hy _ IH]; simpl.
  - by rewrite Hx.
  - rewrite Hy, IH.
    destruct (Z.ltb_spec (Z.of_nat (length l1)) 0); lia.
Qed.

Lemma not_in_cart_ids pid (l : list Item) :
  pid ∉ cart_ids l ↔ Forall (λ item, item_id item ≠ pid) l.
Proof.
  unfold cart_ids. rewrite Forall_forall, list_elem_of_fmap. naive_solver.
Qed.

Lemma addToCart_existing product qty st l1 item l2 :
  cart st = l1 ++ item :: l2 →
  NumId (id product) ∉ cart_ids l1 →
  item_id item = NumId (id product) →
  cart (addToCart product qty st)
  = l1 ++ with_quantity (quantity item + default 1 qty) item :: l2.
Proof.
  intros Hcart Hl1 Hid. unfold addToCart.
  rewrite Hcart, (Array_findIndex_first _ l1 item l2).
  - destruct (Z.ltb_spec (-1) (Z.of_nat (length l1))); [|lia].
    simpl. rewrite Nat2Z.id.
    replace (length l1) with (length l1 + 0)%nat by lia.
    by rewrite alter_app_r.
  - apply not_in_cart_ids in Hl1. eapply Forall_impl; [exact Hl1|].
    intros i Hi. by apply bool_decide_eq_false.
  - by apply bool_decide_eq_true.
Qed.

Lemma addToCart_new product qty st :
  NumId (id product) ∉ cart_ids (cart st) →
  cart (addToCart product qty st)
  = cart st ++ [item_of_product product (default 1 qty)].
Proof.
  intros Hnew.
  destruct (addToCart_cases product qty st)
    as [[_ ->]|(l1 & item & l2 & Hcart & _ & Hid & _)]; [done|].
  destruct Hnew. rewrite Hcart, <-Hid. apply elem_of_cart_ids_app.
Qed.

(** ** Totals and the lines that list a supermarket *)

Lemma assign_lookup_ne market v (totals : gmap string TotalValue) m :
  market ≠ m → assign market v totals !! m = totals !! m.
Proof.
  intros Hne. unfold assign. case_bool_decide; [done|].
  by rewrite lookup_insert_ne.
Qed.

Lemma add_price_lookup_ne q (totals : gmap string TotalValue) market price m :
  market ≠ m → add_price q totals (market, price) !! m = totals !! m.
Proof.
  intros Hne. unfold add_price.
  rewrite assign_lookup_ne by done.
  destruct (falsy _); [by rewrite assign_lookup_ne|done].
Qed.

Lemma read_ext (t1 t2 : gmap string TotalValue) m :
  t1 !! m = t2 !! m → read t1 m = read t2 m.
Proof. unfold read. by intros ->. Qed.

Lemma assign_lookup_ext m v (t1 t2 : gmap string TotalValue) :
  t1 !! m = t2 !! m → assign m v t1 !! m = assign m v t2 !! m.
Proof.
  intros Heq. unfold assign. case_bool_decide; [done|].
  by rewrite !lookup_insert_eq.
Qed.

Lemma add_price_lookup_ext q (t1 t2 : gmap string TotalValue) m price :
  t1 !! m = t2 !! m →
  add_price q t1 (m, price) !! m = add_price q t2 (m, price) !! m.
Proof.
  intros Heq. unfold add_price.
  rewrite (read_ext t1 t2 m Heq).
  destruct (falsy (read t2 m)).
  - rewrite (read_ext (assign m (Amount 0) t1) (assign m (Amount 0) t2) m)
      by by apply assign_lookup_ext.
    by apply assign_lookup_ext, assign_lookup_ext.
  - rewrite (read_ext t1 t2 m Heq). by apply assign_lookup_ext.
Qed.

Lemma fold_add_price_ext q (l : list (string * Z)) (t1 t2 : gmap string TotalValue) m :
  t1 !! m = t2 !! m →
  foldl (add_price q) t1 l !! m = foldl (add_price q) t2 l !! m.
Proof.
  revert t1 t2. induction l as [|[k v] l IH]; intros t1 t2 Heq; [done|].
  cbn [foldl]. apply IH. destruct (decide (k = m)) as [->|Hne].
  - by apply add_price_lookup_ext.
  - by rewrite !add_price_lookup_ne.
Qed.

Lemma fold_add_price_absent q (l : list (string * Z)) (totals : gmap string TotalValue) m :
  m ∉ l.*1 → foldl (add_price q) totals l !! m = totals !! m.
Proof.
  revert totals. induction l as [|[k v] l IH]; intros totals Hm; [done|].
  rewrite fmap_cons in Hm. apply not_elem_of_cons in Hm as [Hne Hm].
  cbn [foldl]. rewrite IH by done. by apply add_price_lookup_ne.
Qed.

Lemma item_not_listing item (totals : gmap string TotalValue) m :
  ¬ lists m item →
  foldl (add_price (quantity item)) totals (Object_entries (item_prices item))
    !! m = totals !! m.
Proof.
  intros Hm. apply fold_add_price_absent. unfold Object_entries.
  intros ([k v] & -> & Hkv%elem_of_map_to_list)%list_elem_of_fmap.
  apply Hm. by eexists.
Qed.

Lemma totals_of_listing_lines m items (t1 t2 : gmap string TotalValue) :
  t1 !! m = t2 !! m →
  foldl
    (λ totals item,
       foldl (add_price (quantity item)) totals
         (Object_entries (item_prices item))) t1 items !! m
  = foldl
      (λ totals item,
         foldl (add_price (quantity item)) totals
           (Object_entries (item_prices item))) t2 (filter (lists m) items)
    !! m.
Proof.
  revert t1 t2. induction items as [|item items IH]; intros t1 t2 Heq; [done|].
  rewrite filter_cons. destruct (decide (lists m item)) as [Hm|Hm]; cbn [foldl].
  - apply IH. by apply fold_add_price_ext.
  - apply IH. by rewrite item_not_listing.
Qed.

Lemma totals_lookup_listing st m :
  getSupermarketTotals st !! m
  = getSupermarketTotals (setCart (filter (lists m) (cart st)) st) !! m.
Proof. unfold getSupermarketTotals. simpl. by apply totals_of_listing_lines. Qed.

Lemma filter_filter_absorb {A} (P Q : A → Prop)
    `{!∀ x, Decision (P x), !∀ x, Decision (Q x)} (l : list A) :
  Forall (λ x, P x → Q x) l → filter P (filter Q l) = filter P l.
Proof.
  induction 1 as [|x l Hx _ IH]; [done|].
  rewrite !(filter_cons _ x).
  destruct (decide (Q x)) as [HQ|HQ].
  - rewrite filter_cons, IH. done.
  - rewrite IH. by rewrite decide_False by tauto.
Qed.

(** X2: the total of a supermarket depends only on the lines of the cart
    that list a price there, in their order.  So adding a product, adding
    to the quantity of a line, removing the lines of a product or changing
    their quantity leaves the total of every supermarket at which the
    lines concerned list no price exactly as it is (it also stays absent
    when it was absent). *)
Theorem totals_frame st m :
  (∀ st', filter (lists m) (cart st) = filter (lists m) (cart st') →
     getSupermarketTotals st !! m = getSupermarketTotals st' !! m)
  ∧ (∀ product qty,
       NumId (id product) ∉ cart_ids (cart st) →
       prices product !! m = None →
       getSupermarketTotals (addToCart product qty st) !! m
       = getSupermarketTotals st !! m)
  ∧ (∀ product qty l1 item l2,
       cart st = l1 ++ item :: l2 →
       NumId (id product) ∉ cart_ids l1 →
       item_id item = NumId (id product) →
       ¬ lists m item →
       getSupermarketTotals (addToCart product qty st) !! m
       = getSupermarketTotals st !! m)
  ∧ (∀ productId,
       Forall (λ item, item_id item = productId → ¬ lists m item) (cart st) →
       getSupermarketTotals (removeFromCart productId st) !! m
       = getSupermarketTotals st !! m)
  ∧ (∀ productId q,
       Forall (λ item, item_id item = productId → ¬ lists m item) (cart st) →
       getSupermarketTotals (updateQuantity productId q st) !! m
       = getSupermarketTotals st !! m).
Proof.
  assert (∀ s s', filter (lists m) (cart s) = filter (lists m) (cart s') →
            getSupermarketTotals s !! m = getSupermarketTotals s' !! m)
    as Hframe.
  { intros s s' Heq.
    rewrite (totals_lookup_listing s), (totals_lookup_listing s').
    unfold getSupermarketTotals. simpl. by rewrite Heq. }
  split_and!.
  - apply Hframe.
  - intros product qty Hnew Hm. apply Hframe.
    rewrite addToCart_new by done.
    rewrite filter_app, filter_cons_False, filter_nil, app_nil_r; [done|].
    unfold lists. simpl. rewrite Hm. by intros [? [=]].
  - intros product qty l1 item l2 Hcart Hl1 Hid Hm. apply Hframe.
    rewrite (addToCart_existing _ _ _ l1 item l2), Hcart by done.
    rewrite !filter_app, !filter_cons_False; done.
  - intros productId Hall. apply Hframe. unfold removeFromCart. simpl.
    apply filter_filter_absorb.
    eapply Forall_impl; [exact Hall|]. intros item Hitem Hm Heq. by apply Hitem.
  - intros productId q Hall. apply Hframe. unfold updateQuantity.
    destruct (q <? 1); [done|]. simpl.
    induction Hall as [|item l Hitem _ IH]; [done|].
    rewrite fmap_cons, !filter_cons, IH.
    destruct (decide (item_id item = productId)) as [Hid|Hid]; [|done].
    rewrite !decide_False; [done|by apply Hitem|by apply Hitem].
Qed.

Lemma totals_frame_witness :
  (NumId (id prod_B) ∉ cart_ids (cart (provider [line 1 [("z", 10)] 2])))
  ∧ prices prod_B !! "z" = None
  ∧ getSupermarketTotals
      (addToCart prod_B (Some 3) (provider [line 1 [("z", 10)] 2])) !! "z"
    = getSupermarketTotals (provider [line 1 [("z", 10)] 2]) !! "z"
  ∧ getSupermarketTotals (provider [line 1 [("z", 10)] 2])
    = {[ "z" := Amount 20 ]}
  ∧ getSupermarketTotals
      (addToCart prod_B (Some 3) (provider [line 1 [("z", 10)] 2]))
    = {[ "x" := Amount 15; "y" := Amount 15; "z" := Amount 20 ]}.
Proof.
  assert (NumId (id prod_B) ∉ cart_ids (cart (provider [line 1 [("z", 10)] 2])))
    as Hnew.
  { apply (bool_decide_unpack _). by vm_compute. }
  assert (prices prod_B !! "z" = None) as Hz by reflexivity.
  destruct (totals_frame (provider [line 1 [("z", 10)] 2]) "z")
    as (_ & Hadd & _).
  split_and!; [exact Hnew|exact Hz|exact (Hadd prod_B (Some 3) Hnew Hz)
              |reflexivity|reflexivity].
Defined.

(** ** [removeFromCart] and [updateQuantity] *)

Lemma filter_all {A} (P : A → Prop) `{!∀ x, Decision (P x)} (l : list A) :
  Forall P l → filter P l = l.
Proof.
  induction 1 as [|x l Hx _ IH]; [done|].
  by rewrite filter_cons_True, IH.
Qed.



(** X4: [updateQuantity] with a quantity of at least 1 gives that
    quantity to every line of the product and leaves the other lines, the
    order and the number of lines as they are; for a product that is not
    in the cart nothing changes; of two updates of the same product the
    later one wins. *)
Theorem updateQuantity_spec st productId q :
  1 ≤ q →
  (length (cart (updateQuantity productId q st)) = length (cart st))
  ∧ (∀ i item, cart st !! i = Some item →
       cart (updateQuantity productId q st) !! i
       = Some (if decide (item_id item = productId)
               then with_quantity q item else item))
  ∧ (productId ∉ cart_ids (cart st) → updateQuantity productId q st = st)
  ∧ (∀ q', 1 ≤ q' →
       updateQuantity productId q' (updateQuantity productId q st)
       = updateQuantity productId q' st).
Proof.
  intros Hq.
  assert (∀ q0 s, 1 ≤ q0 →
            updateQuantity productId q0 s
            = setCart ((λ item, if decide (item_id item = productId)
                                then with_quantity q0 item else item)
                       <$> cart s) s) as Hunfold.
  { intros q0 s Hq0. unfold updateQuantity.
    by destruct (Z.ltb_spec q0 1); [lia|]. }
  split_and!.
  - rewrite Hunfold by done. simpl. by rewrite length_fmap.
  - intros i item Hi. rewrite Hunfold by done. simpl.
    by rewrite list_lookup_fmap, Hi.
  - intros Habsent. rewrite Hunfold by done.
    apply not_in_cart_ids in Habsent.
    replace (_ <$> cart st) with (cart st); [by destruct st|].
    induction Habsent as [|item l Hitem _ IH]; [done|].
    rewrite fmap_cons, <-IH. by rewrite decide_False.
  - intros q' Hq'. rewrite !Hunfold by done. unfold setCart. simpl.
    f_equal. rewrite <-list_fmap_compose. apply list_fmap_ext.
    intros i item _. simpl.
    destruct (decide (item_id item = productId)) as [Heq|Hne]; simpl.
    + by rewrite decide_True.
    + by rewrite decide_False.
Qed.

Lemma updateQuantity_spec_witness :
  1 ≤ 4
  ∧ cart (updateQuantity (NumId 2) 4 (provider example_cart)) !! 1%nat
    = Some (line 2 [("x", 5)] 4)
  ∧ updateQuantity (NumId 2) 9 (updateQuantity (NumId 2) 4 (provider example_cart))
    = updateQuantity (NumId 2) 9 (provider example_cart).
Proof.
  assert (1 ≤ 4) as Hq by lia.
  destruct (updateQuantity_spec (provider example_cart) (NumId 2) 4 Hq)
    as (_ & Hlookup & _ & Hlast).
  split_and!; [exact Hq| |apply Hlast; lia].
  exact (Hlookup 1%nat (line 2 [("x", 5)] 1) eq_refl).
Defined.

(** ** The quantity selector and the cart reached through the pages *)

Lemma press_bounds q b :
  (1 ≤ q → 1 ≤ press q b) ∧ (q ≤ 99 → press q b ≤ 99).
Proof. destruct b; unfold press, increaseQty, decreaseQty; lia. Qed.

Lemma selected_quantity_low presses initial :
  1 ≤ initial → 1 ≤ selected_quantity initial presses.
Proof.
  unfold selected_quantity. revert initial.
  induction presses as [|b presses IH]; intros initial Hq; simpl; [done|].
  apply IH. by apply press_bounds.
Qed.

Lemma selected_quantity_high presses initial :
  initial ≤ 99 → selected_quantity initial presses ≤ 99.
Proof.
  unfold selected_quantity. revert initial.
  induction presses as [|b presses IH]; intros initial Hq; simpl; [done|].
  apply IH. by apply press_bounds.
Qed.

(** X5: whatever buttons are pressed, the quantity chosen on a product
    card lies between 1 and 99; started from any quantity of at least 1
    (as in the product modal) the selector never goes below 1. *)
Theorem selected_quantity_bounds presses :
  (1 ≤ selected_quantity 1 presses ≤ 99)
  ∧ (∀ initial, 1 ≤ initial → 1 ≤ selected_quantity initial presses).
Proof.
  split_and!.
  - by apply selected_quantity_low.
  - by apply selected_quantity_high.
  - intros initial. apply selected_quantity_low.
Qed.

Lemma existingItem_in_cart product st item :
  existingItem product st = Some item →
  item ∈ cart st ∧ item_id item = NumId (id product).
Proof.
  unfold existingItem. intros [Hin Hid]%find_some.
  split; [by apply list_elem_of_In|by apply bool_decide_eq_true in Hid].
Qed.

Lemma modal_initial_quantity_low product st :
  quantities_ok (cart st) → 1 ≤ modal_initial_quantity product st.
Proof.
  intros Hok. unfold modal_initial_quantity.
  destruct (existingItem product st) as [item|] eqn:Hitem; [|done].
  apply existingItem_in_cart in Hitem as [Hin _].
  unfold quantities_ok in Hok. rewrite Forall_forall in Hok.
  specialize (Hok item Hin). simpl in Hok.
  destruct (Z.eqb_spec (quantity item) 0); lia.
Qed.

Lemma loadSelectedCart_quantities doc st :
  CartSchema_validate doc = true →
  quantities_ok (cart (loadSelectedCart doc st)).
Proof.
  intros Hdoc%CartSchema_validate_quantities.
  unfold loadSelectedCart, loadCart, quantities_ok. simpl.
  by apply Forall_fmap.
Qed.

Lemma ui_step_quantities st e :
  match e with
  | LoadSaved selectedCart => CartSchema_validate selectedCart = true
  | _ => True
  end →
  quantities_ok (cart st) → quantities_ok (cart (ui_step st e)).
Proof.
  intros He Hq. destruct e as [p bs|p bs|i|i|i| |doc]; simpl.
  - apply addToCart_quantities; [|done]. by apply selected_quantity_low.
  - apply addToCart_quantities; [|done].
    by apply selected_quantity_low, modal_initial_quantity_low.
  - unfold on_line, item_minus. destruct (cart st !! i) as [item|]; [|done].
    destruct (quantity item <=? 1); [done|].
    by apply updateQuantity_quantities.
  - unfold on_line, item_plus. destruct (cart st !! i) as [item|]; [|done].
    by apply updateQuantity_quantities.
  - unfold on_line, item_remove. destruct (cart st !! i) as [item|]; [|done].
    by apply removeFromCart_quantities.
  - constructor.
  - exact (loadSelectedCart_quantities doc st He).
Qed.

Lemma ui_step_ids st e :
  match e with LoadSaved _ => False | _ => True end →
  NoDup (cart_ids (cart st)) → NoDup (cart_ids (cart (ui_step st e))).
Proof.
  intros He Hid. destruct e as [p bs|p bs|i|i|i| |doc]; simpl; [..|done].
  - by apply addToCart_ids_distinct.
  - by apply addToCart_ids_distinct.
  - unfold on_line, item_minus. destruct (cart st !! i) as [item|]; [|done].
    destruct (quantity item <=? 1); [done|]. by rewrite updateQuantity_ids.
  - unfold on_line, item_plus. destruct (cart st !! i) as [item|]; [|done].
    by rewrite updateQuantity_ids.
  - unfold on_line, item_remove. destruct (cart st !! i) as [item|]; [|done].
    by apply removeFromCart_ids_distinct.
  - constructor.
Qed.

(** X6: what the pages let the user do to the cart: adding from a
    product card or from the product modal after any presses of the
    selector, the plus, minus and remove buttons of a line, clearing the
    cart, and loading a saved cart.  Under every sequence of these in
    which the saved carts loaded pass the schema (as every cart the server
    stores does), all quantities stay at 1 or more.  Under every sequence
    without a load the ids of the lines stay pairwise distinct as well;
    loading a saved cart replaces the cart by the lines of that cart,
    whatever their ids are. *)
Theorem ui_run_ok events st :
  (loads_valid events → quantities_ok (cart st) →
   quantities_ok (cart (ui_run events st)))
  ∧ (loads_nothing events → cart_ok st → cart_ok (ui_run events st))
  ∧ (∀ selectedCart,
       cart (ui_run (events ++ [LoadSaved selectedCart]) st)
       = item_of_stored <$> cart_items selectedCart).
Proof.
  unfold ui_run. split_and!.
  - revert st. induction events as [|e events IH]; intros st Hev Hst; [done|].
    apply Forall_cons in Hev as [He Hev]. simpl.
    by apply IH, ui_step_quantities.
  - revert st. induction events as [|e events IH]; intros st Hev Hst; [done|].
    apply Forall_cons in Hev as [He Hev]. simpl. apply IH; [done|].
    destruct Hst as [Hq Hid]. split.
    + apply ui_step_quantities; [by destruct e|done].
    + by apply ui_step_ids.
  - intros doc. by rewrite foldl_app.
Qed.

Lemma ui_run_ok_witness :
  let saved := stored_cart 5 "user-1" 20 3 in
  let events :=
    [CardAdd prod_A [PressPlus; PressPlus]; CardAdd prod_A [PressMinus];
     LineMinus 0; LoadSaved saved; ModalAdd prod_A []; LineRemove 3;
     LinePlus 0] in
  loads_valid events
  ∧ quantities_ok (cart (provider []))
  ∧ quantities_ok (cart (ui_run events (provider [])))
  ∧ quantity <$> cart (ui_run events (provider [])) = [4; 1]
  ∧ loads_nothing [CardAdd prod_A [PressPlus]; ModalAdd prod_A []; LinePlus 0]
  ∧ cart_ok
      (ui_run [CardAdd prod_A [PressPlus]; ModalAdd prod_A []; LinePlus 0]
         (provider []))
  ∧ cart (ui_run [CardAdd prod_A [PressPlus]; ModalAdd prod_A []; LinePlus 0]
            (provider []))
    = [{| item_id := NumId 0; item_name := "A"; item_category := Some "food";
          item_prices := {[ "x" := 10; "y" := 12 ]}; quantity := 5 |}].
Proof.
  intros saved events.
  assert (loads_valid events) as Hvalid.
  { repeat constructor. }
  assert (loads_nothing
            [CardAdd prod_A [PressPlus]; ModalAdd prod_A []; LinePlus 0])
    as Hnone by repeat constructor.
  assert (cart_ok (provider [])) as Hempty by (split; constructor).
  destruct (ui_run_ok events (provider [])) as (Hq & _ & _).
  destruct (ui_run_ok
              [CardAdd prod_A [PressPlus]; ModalAdd prod_A []; LinePlus 0]
              (provider [])) as (_ & Hok & _).
  split_and!;
    [exact Hvalid|constructor|exact (Hq Hvalid (proj1 Hempty))
    |vm_compute; reflexivity|exact Hnone|exact (Hok Hnone Hempty)
    |vm_compute; reflexivity].
Defined.

Lemma existingItem_first product st l1 item l2 :
  cart st = l1 ++ item :: l2 →
  NumId (id product) ∉ cart_ids l1 →
  item_id item = NumId (id product) →
  existingItem product st = Some item.
Proof.
  intros Hcart Hl1 Hid. unfold existingItem. rewrite Hcart. clear Hcart.
  apply not_in_cart_ids in Hl1.
  induction Hl1 as [|i l1 Hi _ IH]; simpl.
  - by rewrite (bool_decide_eq_true_2 _ Hid).
  - by rewrite (bool_decide_eq_false_2 _ Hi).
Qed.

(** X7: the product modal opens with the quantity the product already
    has in the cart, and its button adds the selected quantity to the
    line: confirming without touching the selector doubles the quantity of
    a product that is in the cart and leaves the other fields of the line
    and the other lines as they are; for a product that is not in the cart
    it appends one line, with the id, the name, the category and the
    prices of the product and the quantity 1. *)
Theorem modal_add_untouched st product :
  (∀ l1 item l2,
     cart st = l1 ++ item :: l2 →
     NumId (id product) ∉ cart_ids l1 →
     item_id item = NumId (id product) →
     quantity item ≠ 0 →
     ∃ item',
       cart (modal_handleAddToCart product [] st) = l1 ++ item' :: l2
       ∧ quantity item' = 2 * quantity item
       ∧ item_id item' = item_id item
       ∧ item_name item' = item_name item
       ∧ item_category item' = item_category item
       ∧ item_prices item' = item_prices item)
  ∧ (NumId (id product) ∉ cart_ids (cart st) →
     ∃ item',
       cart (modal_handleAddToCart product [] st) = cart st ++ [item']
       ∧ quantity item' = 1
       ∧ item_id item' = NumId (id product)
       ∧ item_name item' = name product
       ∧ item_category item' = Some (category product)
       ∧ item_prices item' = prices product).
Proof.
  unfold modal_handleAddToCart, modal_initial_quantity. split.
  - intros l1 item l2 Hcart Hl1 Hid Hq.
    rewrite (existingItem_first product st l1 item l2) by done.
    destruct (Z.eqb_spec (quantity item) 0); [done|].
    rewrite (addToCart_existing _ _ _ l1 item l2) by done.
    eexists. split_and!; [done| |done..]. simpl. lia.
  - intros Hnew.
    destruct (existingItem product st) as [item|] eqn:Hitem.
    + apply existingItem_in_cart in Hitem as [Hin Hid].
      destruct Hnew. unfold cart_ids. rewrite <-Hid.
      by apply list_elem_of_fmap_2.
    + rewrite addToCart_new by done. by eexists.
Qed.

Lemma modal_add_untouched_witness :
  cart (provider [line 0 [("x", 10)] 3]) = [] ++ line 0 [("x", 10)] 3 :: []
  ∧ cart (modal_handleAddToCart prod_A [] (provider [line 0 [("x", 10)] 3]))
    = [{| item_id := NumId 0; item_name := "item"; item_category := None;
          item_prices := {[ "x" := 10 ]}; quantity := 6 |}]
  ∧ cart (modal_handleAddToCart prod_A [] (provider [line 4 [("x", 10)] 3]))
    = [{| item_id := NumId 4; item_name := "item"; item_category := None;
          item_prices := {[ "x" := 10 ]}; quantity := 3 |};
       {| item_id := NumId 0; item_name := "A"; item_category := Some "food";
          item_prices := {[ "x" := 10; "y" := 12 ]}; quantity := 1 |}]
  ∧ ∃ item',
      cart (modal_handleAddToCart prod_A [] (provider [line 0 [("x", 10)] 3]))
      = [] ++ item' :: []
      ∧ quantity item' = 2 * 3
      ∧ item_id item' = NumId 0
      ∧ item_name item' = "item"
      ∧ item_category item' = None
      ∧ item_prices item' = {[ "x" := 10 ]}.
Proof.
  destruct (modal_add_untouched (provider [line 0 [("x", 10)] 3]) prod_A)
    as [Hdouble _].
  split_and!; [reflexivity..|].
  apply (Hdouble [] (line 0 [("x", 10)] 3) []).
  - reflexivity.
  - apply not_elem_of_nil.
  - reflexivity.
  - simpl. lia.
Defined.

(** * Further properties of the cart routes *)

Lemma filter_insert_other {A} (P : A → Prop) `{!∀ x, Decision (P x)}
    (l : list A) i x y :
  l !! i = Some x → ¬ P x → ¬ P y → filter P (<[i := y]> l) = filter P l.
Proof.
  revert i. induction l as [|z l IH]; intros [|i] Hi Hx Hy; simplify_eq/=.
  - by rewrite !filter_cons_False.
  - rewrite !filter_cons. by rewrite (IH i).
Qed.

Lemma filter_delete_other {A} (P : A → Prop) `{!∀ x, Decision (P x)}
    (l : list A) i x :
  l !! i = Some x → ¬ P x → filter P (delete i l) = filter P l.
Proof.
  revert i. induction l as [|z l IH]; intros [|i] Hi Hx; simplify_eq/=.
  - by rewrite filter_cons_False.
  - rewrite !filter_cons. by rewrite (IH i).
Qed.

Lemma findById_Some oid carts i cart :
  findById oid carts = Some (i, cart) →
  carts !! i = Some cart ∧ cart_oid cart = oid.
Proof. unfold findById. intros (? & ? & _)%list_find_Some. done. Qed.

Section cart_router_facts.
Variable jwt_verify : string → option string.

Lemma authMiddleware_user {A} tok b u :
  user_of jwt_verify tok = Some u →
  @authMiddleware jwt_verify A {| x_auth_token := tok; body := b |} = inl u.
Proof.
  unfold user_of, authMiddleware. simpl.
  destruct tok as [[|c t]|]; [done| |done]. by intros ->.
Qed.

Lemma authMiddleware_denied {A} tok b :
  user_of jwt_verify tok = None →
  ∃ m, @authMiddleware jwt_verify A {| x_auth_token := tok; body := b |}
       = inr (Message 401 m).
Proof.
  unfold user_of, authMiddleware. simpl.
  destruct tok as [[|c t]|]; [by eexists| |by eexists].
  intros ->. by eexists.
Qed.

(** X8: without a token that verifies, every route of the carts answers
    401 and leaves the collection as it is. *)
Theorem cart_router_unauthenticated now tok call carts :
  user_of jwt_verify tok = None →
  cart_router jwt_verify now tok call carts = (401, carts).
Proof.
  intros Hu. unfold cart_router.
  destruct call as [|param|b|param b|param]; simpl.
  - unfold route_get_carts.
    by destruct (authMiddleware_denied (A:=list CartDoc) tok no_body Hu)
      as [m ->].
  - unfold route_get_cart.
    by destruct (authMiddleware_denied (A:=CartDoc) tok no_body Hu) as [m ->].
  - unfold route_post_cart.
    by destruct (authMiddleware_denied (A:=CartDoc) tok b Hu) as [m ->].
  - unfold route_put_cart.
    by destruct (authMiddleware_denied (A:=CartDoc) tok b Hu) as [m ->].
  - unfold route_delete_cart.
    by destruct (authMiddleware_denied (A:=()) tok no_body Hu) as [m ->].
Qed.

Lemma post_cart_appends now u b carts :
  (post_cart now u b carts).2 = carts
  ∨ ∃ doc, (post_cart now u b carts).2 = carts ++ [doc]
           ∧ cart_userId doc = u ∧ CartSchema_validate doc = true.
Proof.
  unfold post_cart.
  destruct (negb (is_truthy (body_items b)) || _ || _); [by left|].
  destruct (save _ carts) as [[saved carts']|] eqn:Hsave; [|by left].
  apply save_validated in Hsave as (-> & -> & Hvalid).
  right. by eexists.
Qed.

Lemma put_cart_replaces now u param b carts :
  (put_cart now u param b carts).2 = carts
  ∨ ∃ i old doc,
      carts !! i = Some old ∧ cart_userId old = u ∧ cart_userId doc = u
      ∧ cart_oid doc = cart_oid old ∧ createdAt doc = createdAt old
      ∧ CartSchema_validate doc = true
      ∧ put_cart now u param b carts = (Json 200 doc, <[i := doc]> carts).
Proof.
  unfold put_cart.
  destruct (negb (is_truthy (body_items b)) || _); [by left|].
  destruct param as [oid|]; [|by left].
  destruct (findById oid carts) as [[i old]|] eqn:Hfind; [|by left].
  apply findById_Some in Hfind as [Hi Hoid].
  case_decide as Howner; [by left|].
  destruct (CartSchema_validate _) eqn:Hvalid; [|by left].
  right.
  match type of Hvalid with
  | CartSchema_validate ?d = true => exists i, old, d
  end.
  by split_and!.
Qed.

Lemma delete_cart_removes u param carts :
  (delete_cart u param carts).2 = carts
  ∨ ∃ i old,
      carts !! i = Some old ∧ cart_userId old = u
      ∧ delete_cart u param carts
        = (Message 200 "העגלה נמחקה בהצלחה", delete i carts).
Proof.
  unfold delete_cart.
  destruct param as [oid|]; [|by left].
  destruct (findById oid carts) as [[i old]|] eqn:Hfind; [|by left].
  apply findById_Some in Hfind as [Hi Hoid].
  case_decide as Howner; [by left|].
  right. by exists i, old.
Qed.

Lemma cart_router_collection now tok call carts u :
  user_of jwt_verify tok = Some u →
  (cart_router jwt_verify now tok call carts).2
  = match call with
    | GetCarts | GetCart _ => carts
    | PostCart b => (post_cart now u b carts).2
    | PutCart param b => (put_cart now u param b carts).2
    | DeleteCart param => (delete_cart u param carts).2
    end.
Proof.
  intros Hu. unfold cart_router.
  destruct call as [|param|b|param b|param]; simpl; [done|done|..].
  - unfold route_post_cart.
    rewrite (authMiddleware_user (A:=CartDoc) tok b u Hu). simpl.
    by destruct (post_cart now u b carts).
  - unfold route_put_cart.
    rewrite (authMiddleware_user (A:=CartDoc) tok b u Hu). simpl.
    by destruct (put_cart now u param b carts).
  - unfold route_delete_cart.
    rewrite (authMiddleware_user (A:=()) tok no_body u Hu).
    by destruct (delete_cart u param carts).
Qed.

(** X9: a request made with the token of one user never changes the
    carts of another user, whatever route it takes and whatever it
    sends. *)
Theorem cart_router_isolation now tok call carts u other :
  user_of jwt_verify tok = Some u →
  other ≠ u →
  carts_of other (cart_router jwt_verify now tok call carts).2
  = carts_of other carts.
Proof.
  intros Hu Hother. rewrite (cart_router_collection _ _ _ _ u Hu).
  unfold carts_of. destruct call as [|param|b|param b|param]; [done|done|..].
  - destruct (post_cart_appends now u b carts)
      as [->|(doc & -> & Howner & _)]; [done|].
    rewrite filter_app, filter_cons_False, filter_nil, app_nil_r; [done|].
    congruence.
  - destruct (put_cart_replaces now u param b carts)
      as [->|(i & old & doc & Hi & Hold & Hdoc & _ & _ & _ & ->)]; [done|].
    simpl. apply (filter_insert_other _ carts i old doc); congruence.
  - destruct (delete_cart_removes u param carts)
      as [->|(i & old & Hi & Hold & ->)]; [done|].
    simpl. apply (filter_delete_other _ carts i old); congruence.
Qed.


(** X11: every route stores only documents that pass the [CartSchema]:
    if all stored carts are valid (in particular every stored item has a
    quantity of at least 1), they still are after any request. *)
Theorem cart_router_keeps_schema now tok call carts :
  Forall (λ doc, CartSchema_validate doc = true) carts →
  Forall (λ doc, CartSchema_validate doc = true)
    (cart_router jwt_verify now tok call carts).2
  ∧ stored_quantities_ok (cart_router jwt_verify now tok call carts).2.
Proof.
  intros Hcarts.
  assert (Forall (λ doc, CartSchema_validate doc = true)
            (cart_router jwt_verify now tok call carts).2) as Hvalid.
  { destruct (user_of jwt_verify tok) as [u|] eqn:Hu;
      [|by rewrite cart_router_unauthenticated].
    rewrite (cart_router_collection _ _ _ _ u Hu).
    destruct call as [|param|b|param b|param]; [done|done|..].
    - destruct (post_cart_appends now u b carts)
        as [->|(doc & -> & _ & Hdoc)]; [done|].
      apply Forall_app. split; [done|]. by constructor.
    - destruct (put_cart_replaces now u param b carts)
        as [->|(i & old & doc & _ & _ & _ & _ & _ & Hdoc & ->)]; [done|].
      simpl. by apply Forall_insert.
    - destruct (delete_cart_removes u param carts)
        as [->|(i & old & _ & _ & ->)]; [done|].
      simpl. by apply Forall_delete. }
  split; [done|].
  eapply Forall_impl; [exact Hvalid|].
  intros doc. apply CartSchema_validate_quantities.
Qed.
End cart_router_facts.

#[global] Instance newest_first_trans : Transitive newest_first.
Proof. intros a b c. unfold newest_first. lia. Qed.

#[global] Instance newest_first_total : Total newest_first.
Proof. intros a b. unfold newest_first. lia. Qed.

Lemma delete_unique {A B} `{EqDecision B} (f : A → B) (l : list A) i x :
  NoDup (f <$> l) → l !! i = Some x →
  delete i l = filter (λ y, f y ≠ f x) l.
Proof.
  revert i. induction l as [|z l IH]; intros [|i] Hnd Hi; simplify_eq/=.
  - apply NoDup_cons in Hnd as [Hx _].
    rewrite filter_cons_False by tauto. symmetry. apply filter_all.
    apply Forall_forall. intros y Hy Heq. apply Hx. rewrite <-Heq.
    by apply list_elem_of_fmap_2.
  - apply NoDup_cons in Hnd as [Hz Hnd].
    rewrite filter_cons_True, (IH i) by
      (try done; intros Heq; apply Hz; rewrite Heq;
       by apply list_elem_of_fmap_2, (list_elem_of_lookup_2 _ i)).
    done.
Qed.

Lemma findById_insert oid carts i old doc :
  findById oid carts = Some (i, old) → cart_oid doc = oid →
  findById oid (<[i := doc]> carts) = Some (i, doc).
Proof.
  unfold findById. intros (Hi & Hold & Hfirst)%list_find_Some Hdoc.
  apply list_find_Some. split_and!; [|done|].
  - apply list_lookup_insert_eq. by eapply lookup_lt_Some.
  - intros j y Hj Hlt. rewrite list_lookup_insert_ne in Hj by lia.
    by eapply Hfirst.
Qed.

Section cart_router_more.
Variable jwt_verify : string → option string.

(** X12: [GET /api/cart] answers with the carts of the user of the token,
    all of them and no other cart, the most recently created first. *)
Theorem get_carts_own tok carts u :
  user_of jwt_verify tok = Some u →
  ∃ l,
    route_get_carts jwt_verify {| x_auth_token := tok; body := no_body |} carts
    = Json 200 l
    ∧ l ≡ₚ carts_of u carts
    ∧ Forall (λ c, cart_userId c = u) l
    ∧ StronglySorted newest_first l.
Proof.
  intros Hu. unfold route_get_carts.
  rewrite (authMiddleware_user jwt_verify (A:=list CartDoc) tok no_body u Hu).
  eexists. split; [done|]. split_and!.
  - apply merge_sort_Permutation.
  - rewrite merge_sort_Permutation. apply Forall_forall.
    intros c Hc. by apply list_elem_of_filter in Hc as [? _].
  - apply (StronglySorted_merge_sort _).
Qed.

(** X13: when the ids of the stored carts are pairwise distinct, a
    DELETE by the owner answers 200 and removes that cart and no other,
    and a GET of the same id afterwards answers 404. *)
Theorem delete_cart_own now tok carts u oid i cart :
  user_of jwt_verify tok = Some u →
  NoDup (cart_oid <$> carts) →
  findById oid carts = Some (i, cart) →
  cart_userId cart = u →
  let carts' := filter (λ c, cart_oid c ≠ oid) carts in
  cart_router jwt_verify now tok (DeleteCart (Some oid)) carts = (200, carts')
  ∧ length carts = S (length carts')
  ∧ cart_router jwt_verify now tok (GetCart (Some oid)) carts' = (404, carts').
Proof.
  intros Hu Hnd Hfind Howner carts'.
  pose proof (findById_Some _ _ _ _ Hfind) as [Hi Hoid].
  assert (delete i carts = carts') as Hdel.
  { subst carts'. rewrite <-Hoid. by apply (delete_unique cart_oid). }
  assert (findById oid carts' = None) as Hgone.
  { unfold findById. apply list_find_None, Forall_forall.
    intros c Hc. by apply list_elem_of_filter in Hc as [? _]. }
  split_and!.
  - unfold cart_router, route_delete_cart.
    rewrite (authMiddleware_user jwt_verify (A:=()) tok no_body u Hu).
    unfold delete_cart. rewrite Hfind, decide_False by (by intros []).
    simpl. by rewrite Hdel.
  - rewrite <-Hdel, length_delete by done.
    apply lookup_lt_Some in Hi. lia.
  - unfold cart_router, route_get_cart.
    rewrite (authMiddleware_user jwt_verify (A:=CartDoc) tok no_body u Hu).
    unfold get_cart. by rewrite Hgone.
Qed.

(** X14: a PUT by the owner with an array of items that pass the schema
    answers 200 with the cart holding exactly the new items (the old ones
    are gone), under the same id, owner and creation time and at the same
    place in the collection; a GET of the id afterwards answers with that
    cart.  The array may be empty, which [POST /api/cart] refuses. *)
Theorem put_cart_own now tok carts u oid i cart b items :
  user_of jwt_verify tok = Some u →
  findById oid carts = Some (i, cart) →
  cart_userId cart = u →
  body_items b = ItemsArray items →
  required (trim (JS.str_or_else (body_name b) (cart_name cart))) = true →
  required u = true →
  forallb item_validate (cast_item <$> items) = true →
  let req := {| x_auth_token := tok; body := b |} in
  ∃ doc,
    route_put_cart jwt_verify now req (Some oid) carts
    = (Json 200 doc, <[i := doc]> carts)
    ∧ cart_items doc = cast_item <$> items
    ∧ cart_oid doc = oid ∧ cart_userId doc = u
    ∧ createdAt doc = createdAt cart ∧ updatedAt doc = now
    ∧ route_get_cart jwt_verify req (Some oid) (<[i := doc]> carts)
      = Json 200 doc
    ∧ (items = [] →
       route_post_cart jwt_verify now req carts
       = (Message 400 "העגלה ריקה, לא ניתן לשמור", carts)).
Proof.
  intros Hu Hfind Howner Hitems Hname Huser Hvalid req.
  pose proof (findById_Some _ _ _ _ Hfind) as [Hi Hoid].
  set (doc := {| cart_oid := cart_oid cart;
                 cart_name := trim (JS.str_or_else (body_name b) (cart_name cart));
                 cart_items := cast_item <$> items;
                 cart_userId := cart_userId cart;
                 createdAt := createdAt cart;
                 updatedAt := now |}).
  assert (CartSchema_validate doc = true) as Hdoc.
  { unfold CartSchema_validate, doc. simpl.
    by rewrite Hname, Howner, Huser, Hvalid. }
  exists doc. split_and!; try done.
  - unfold route_put_cart, req.
    rewrite (authMiddleware_user jwt_verify (A:=CartDoc) tok b u Hu).
    unfold put_cart. simpl. rewrite Hitems. simpl.
    rewrite Hfind, decide_False by (by intros []).
    fold doc. by rewrite Hdoc.
  - unfold route_get_cart, req.
    rewrite (authMiddleware_user jwt_verify (A:=CartDoc) tok b u Hu).
    unfold get_cart.
    rewrite (findById_insert oid carts i cart doc) by done.
    by rewrite decide_False by (by intros []).
  - intros ->. unfold route_post_cart, req.
    rewrite (authMiddleware_user jwt_verify (A:=CartDoc) tok b u Hu).
    simpl. apply post_cart_no_items. right. right. done.
Qed.
End cart_router_more.

Lemma cart_router_unauthenticated_witness :
  user_of demo_verify (Some "forged") = None
  ∧ cart_router demo_verify 40 (Some "forged") (DeleteCart (Some 0)) demo_carts
    = (401, demo_carts).
Proof.
  split; [reflexivity|].
  apply cart_router_unauthenticated. reflexivity.
Defined.

Lemma cart_router_isolation_witness :
  user_of demo_verify (Some "good-token") = Some "user-1"
  ∧ "user-2" ≠ "user-1"
  ∧ carts_of "user-2"
      (cart_router demo_verify 40 (Some "good-token") (DeleteCart (Some 0))
         demo_carts).2
    = carts_of "user-2" demo_carts
  ∧ (cart_router demo_verify 40 (Some "good-token") (DeleteCart (Some 0))
       demo_carts).2
    = [stored_cart 1 "user-2" 20 1; stored_cart 2 "user-1" 30 5].
Proof.
  split_and!; [reflexivity|discriminate| |reflexivity].
  apply (cart_router_isolation demo_verify 40 (Some "good-token")
           (DeleteCart (Some 0)) demo_carts "user-1" "user-2");
    [reflexivity|discriminate].
Defined.


Lemma demo_carts_valid :
  Forall (λ doc, CartSchema_validate doc = true) demo_carts.
Proof. repeat constructor. Defined.

Lemma cart_router_keeps_schema_witness :
  Forall (λ doc, CartSchema_validate doc = true) demo_carts
  ∧ stored_quantities_ok
      (cart_router demo_verify 40 (Some "good-token")
         (PutCart (Some 0)
            {| body_name := None;
               body_items := ItemsArray [line 5 [("x", 3)] 0] |})
         demo_carts).2
  ∧ cart_router demo_verify 40 (Some "good-token")
      (PutCart (Some 0)
         {| body_name := None;
            body_items := ItemsArray [line 5 [("x", 3)] 0] |})
      demo_carts
    = (500, demo_carts).
Proof.
  split_and!; [exact demo_carts_valid| |reflexivity].
  apply (cart_router_keeps_schema demo_verify), demo_carts_valid.
Defined.

Lemma get_carts_own_witness :
  user_of demo_verify (Some "good-token") = Some "user-1"
  ∧ route_get_carts demo_verify
      {| x_auth_token := Some "good-token"; body := no_body |} demo_carts
    = Json 200 [stored_cart 2 "user-1" 30 5; stored_cart 0 "user-1" 10 2]
  ∧ ∃ l,
      route_get_carts demo_verify
        {| x_auth_token := Some "good-token"; body := no_body |} demo_carts
      = Json 200 l
      ∧ l ≡ₚ carts_of "user-1" demo_carts
      ∧ Forall (λ c, cart_userId c = "user-1") l
      ∧ StronglySorted newest_first l.
Proof.
  split_and!; [reflexivity|reflexivity|].
  apply get_carts_own. reflexivity.
Defined.

Lemma demo_carts_ids_distinct : NoDup (cart_oid <$> demo_carts).
Proof. apply (bool_decide_unpack _). by vm_compute. Defined.

Lemma delete_cart_own_witness :
  cart_router demo_verify 40 (Some "good-token") (DeleteCart (Some 2))
    demo_carts
  = (200, [stored_cart 0 "user-1" 10 2; stored_cart 1 "user-2" 20 1])
  ∧ cart_router demo_verify 40 (Some "good-token") (GetCart (Some 2))
      (filter (λ c, cart_oid c ≠ 2) demo_carts)
    = (404, filter (λ c, cart_oid c ≠ 2) demo_carts).
Proof.
  destruct (delete_cart_own demo_verify 40 (Some "good-token") demo_carts
              "user-1" 2 2%nat (stored_cart 2 "user-1" 30 5)
              eq_refl demo_carts_ids_distinct eq_refl eq_refl)
    as (Hdel & _ & Hget).
  split; [exact Hdel|exact Hget].
Defined.

Lemma put_cart_own_witness :
  ∃ doc,
    route_put_cart demo_verify 40
      {| x_auth_token := Some "good-token";
         body := {| body_name := Some "empty"; body_items := ItemsArray [] |} |}
      (Some 0) demo_carts
    = (Json 200 doc, <[0%nat := doc]> demo_carts)
    ∧ cart_items doc = []
    ∧ cart_name doc = "empty".
Proof.
  destruct (put_cart_own demo_verify 40 (Some "good-token") demo_carts
              "user-1" 0 0%nat (stored_cart 0 "user-1" 10 2)
              {| body_name := Some "empty"; body_items := ItemsArray [] |} []
              eq_refl eq_refl eq_refl eq_refl eq_refl eq_refl eq_refl)
    as (doc & Hput & Hitems & _).
  exists doc. split_and!; [exact Hput|exact Hitems|].
  vm_compute in Hput. by injection Hput as <-.
Defined.

(** * Further properties of the cart provider *)

Section client_facts.
Variable jwt_verify : string → option string.

Lemma route_post_cart_outcome now req carts :
  (∃ doc, route_post_cart jwt_verify now req carts
          = (Json 201 doc, carts ++ [doc])
          ∧ CartSchema_validate doc = true
          ∧ cart_items doc = cast_item <$> elements (body_items (body req)))
  ∨ (∃ s m, route_post_cart jwt_verify now req carts = (Message s m, carts)
            ∧ (s = 400 ∨ s = 401 ∨ s = 500)).
Proof.
  unfold route_post_cart, authMiddleware.
  destruct (x_auth_token req) as [[|c t]|]; [right; eexists _, _; eauto| |right; eexists _, _; eauto].
  destruct (jwt_verify _) as [u|]; [|right; eexists _, _; eauto].
  unfold post_cart.
  destruct (negb _ || _ || _); [right; eexists _, _; eauto|].
  destruct (save _ carts) as [[saved carts']|] eqn:Hsave; [|right; eexists _, _; eauto].
  apply save_validated in Hsave as (-> & -> & Hvalid).
  left. eexists. split_and!; [done|done|done].
Qed.

Lemma fetchSavedCarts_frame w :
  ∃ w', fetchSavedCarts jwt_verify w = (Return (), w')
    ∧ cart (ui w') = cart (ui w) ∧ carts_db w' = carts_db w
    ∧ token w' = token w ∧ clock w' = clock w
    ∧ currentUser w' = currentUser w ∧ loading (ui w') = false.
Proof.
  unfold fetchSavedCarts, finally, try_catch, getSavedCarts, require_token,
    fetch_get_carts, json_or_throw, get, set_ui, throw,
    mbind, Eff_bind, mret, Eff_ret.
  cbn -[route_get_carts].
  destruct (currentUser w) eqn:Hcu; cbn -[route_get_carts]; [|by eexists].
  destruct (token w) as [[|c t]|] eqn:Htok; cbn -[route_get_carts];
    [by eexists| |by eexists].
  destruct (route_get_carts _ _ _) as [s l|s m]; cbn; [|by eexists].
  destruct (_ && _); cbn; by eexists.
Qed.

(** X15: [saveCart] never throws and always ends with [loading] off and
    the local cart untouched.  It returns the saved cart exactly when the
    server stored it: then the collection has grown by that one valid
    document, whose items are the items of the cart, and [error] is
    cleared; otherwise it returns [null], the collection is as before and
    [error] is set. *)
Theorem saveCart_outcome name w :
  ∃ r w',
    saveCart jwt_verify name w = (Return r, w')
    ∧ loading (ui w') = false
    ∧ cart (ui w') = cart (ui w)
    ∧ token w' = token w
    ∧ match r with
      | Some doc =>
          carts_db w' = carts_db w ++ [doc]
          ∧ CartSchema_validate doc = true
          ∧ cart_items doc = cast_item <$> cart (ui w)
          ∧ error (ui w') = None
      | None => carts_db w' = carts_db w ∧ is_Some (error (ui w'))
      end.
Proof.
  destruct (cart (ui w)) as [|item items] eqn:Hcart.
  { rewrite saveCart_empty by done. eexists _, _. split; [done|].
    simpl. rewrite Hcart. split_and!; try done; by eexists. }
  unfold saveCart, finally, try_catch, saveCartToDB, require_token,
    fetch_post_cart, json_or_throw, get, set_ui, throw,
    mbind, Eff_bind, mret, Eff_ret.
  cbn -[fetchSavedCarts route_post_cart default_cart_name].
  rewrite Hcart. cbn -[fetchSavedCarts route_post_cart default_cart_name].
  destruct (token w) as [[|c t]|] eqn:Htok;
    cbn -[fetchSavedCarts route_post_cart default_cart_name].
  1,3: eexists _, _; split; [done|]; simpl; rewrite Hcart;
       split_and!; try done; by eexists.
  match goal with
  | |- context [route_post_cart ?j ?n ?r ?c] =>
      destruct (route_post_cart_outcome n r c)
        as [(doc & -> & Hvalid & Hitems)|(s & m & -> & Hs)]
  end; cbn -[fetchSavedCarts].
  - match goal with
    | |- context [fetchSavedCarts ?j ?w0] =>
        destruct (fetchSavedCarts_frame w0)
          as (w1 & -> & Hc & Hdb & Ht & _ & _ & _)
    end.
    cbn. eexists _, _. split; [done|]. simpl.
    rewrite Hc, Hdb, Ht. simpl. rewrite Hcart. by split_and!.
  - eexists _, _. split; [done|]. simpl. rewrite Hcart.
    split_and!; try done; by eexists.
Qed.

Lemma str_or_else_idem name d :
  JS.str_or_else (Some (JS.str_or_else name d)) d = JS.str_or_else name d.
Proof. by destruct name as [[|c s]|], d. Qed.

Lemma findById_fresh carts doc :
  Forall (λ c, cart_oid c ≠ cart_oid doc) carts →
  findById (cart_oid doc) (carts ++ [doc]) = Some (length carts, doc).
Proof.
  intros Hfresh. unfold findById. apply list_find_Some. split_and!.
  - by rewrite lookup_app_r, Nat.sub_diag.
  - done.
  - intros j y Hj Hlt. rewrite lookup_app_l in Hj by done.
    rewrite Forall_forall in Hfresh. by apply Hfresh, (list_elem_of_lookup_2 _ j).
Qed.

Lemma totals_ext st st' :
  Forall2 (λ a b, item_prices a = item_prices b ∧ quantity a = quantity b)
    (cart st) (cart st') →
  getSupermarketTotals st = getSupermarketTotals st'.
Proof.
  intros Hsame. unfold getSupermarketTotals.
  generalize (∅ : gmap string TotalValue).
  induction Hsame as [|a b l l' [Hp Hq] _ IH]; intros totals; simpl; [done|].
  by rewrite IH, Hp, Hq.
Qed.

(** X16: saving a cart and loading the saved cart gives the cart back up
    to what the schema keeps: every line comes back with its name, prices
    and quantity, its id as the stored string and no category; the totals
    per supermarket are the same as before saving.  (Preconditions: a
    token that verifies, a cart that is not empty and passes the schema,
    and no stored cart with the id the new one gets.) *)
Theorem save_then_load name w tok u :
  token w = Some tok → tok ≠ "" → jwt_verify tok = Some u →
  required u = true →
  cart (ui w) ≠ [] →
  forallb item_validate (cast_item <$> cart (ui w)) = true →
  required (trim (JS.str_or_else name (default_cart_name (clock w)))) = true →
  Forall (λ c, cart_oid c ≠ Z.of_nat (length (carts_db w))) (carts_db w) →
  ∃ doc w1 w2,
    saveCart jwt_verify name w = (Return (Some doc), w1)
    ∧ carts_db w1 = carts_db w ++ [doc]
    ∧ loadSavedCart jwt_verify (cart_oid doc) w1 = (Return true, w2)
    ∧ cart (ui w2) = (item_of_stored ∘ cast_item) <$> cart (ui w)
    ∧ getSupermarketTotals (ui w2) = getSupermarketTotals (ui w)
    ∧ carts_db w2 = carts_db w1.
Proof.
  intros Htok Hne Hu Hreq Hcart Hitems Hname Hfresh.
  destruct tok as [|c t]; [done|].
  destruct (cart (ui w)) as [|item items] eqn:Hc; [done|].
  set (doc := new_Cart (clock w) (Z.of_nat (length (carts_db w)))
                (JS.str_or_else name (default_cart_name (clock w)))
                (item :: items) u).
  assert (CartSchema_validate doc = true) as Hvalid.
  { unfold CartSchema_validate, doc. simpl.
    simpl in Hitems. by rewrite Hname, Hreq, Hitems. }
  assert (∀ w0, token w0 = Some (String c t) → clock w0 = clock w →
            carts_db w0 = carts_db w →
            fetch_post_cart jwt_verify (String c t)
              {| body_name := Some (JS.str_or_else name (default_cart_name (clock w)));
                 body_items := ItemsArray (item :: items) |} w0
            = (Return (Json 201 doc),
               log_request "POST /api/cart" (set_carts_db (carts_db w ++ [doc]) w0)))
    as Hpost.
  { intros w0 H1 H2 H3.
    unfold fetch_post_cart, route_post_cart, authMiddleware,
      log_request, set_carts_db.
    cbn -[new_Cart default_cart_name JS.str_or_else]. rewrite Hu.
    unfold post_cart. cbn -[new_Cart default_cart_name save JS.str_or_else].
    rewrite H2, H3, str_or_else_idem. fold doc.
    unfold save. by rewrite Hvalid. }
  assert (∃ w1, saveCart jwt_verify name w = (Return (Some doc), w1)
            ∧ carts_db w1 = carts_db w ++ [doc]
            ∧ token w1 = token w) as (w1 & Hsave & Hdb1 & Htok1).
  { unfold saveCart, finally, try_catch, saveCartToDB, require_token, get,
      set_ui, mbind, Eff_bind, mret, Eff_ret.
    cbn -[fetchSavedCarts fetch_post_cart default_cart_name JS.str_or_else].
    rewrite Hc.
    cbn -[fetchSavedCarts fetch_post_cart default_cart_name JS.str_or_else].
    rewrite Htok. rewrite Hpost by done.
    cbn -[fetchSavedCarts default_cart_name JS.str_or_else].
    match goal with
    | |- context [fetchSavedCarts ?j ?w0] =>
        destruct (fetchSavedCarts_frame w0)
          as (w1 & -> & _ & Hdb & Ht & _ & _ & _)
    end.
    cbn. eexists. split; [done|]. simpl. by rewrite Hdb, Ht. }
  assert (findById (cart_oid doc) (carts_db w1) = Some (length (carts_db w), doc))
    as Hfind.
  { rewrite Hdb1. by apply findById_fresh. }
  exists doc, w1.
  unfold loadSavedCart, finally, try_catch, getSavedCartById, require_token,
    fetch_get_cart, route_get_cart, authMiddleware, json_or_throw, get, set_ui,
    mbind, Eff_bind, mret, Eff_ret.
  cbn -[findById doc]. rewrite Htok1, Htok. cbn -[findById doc].
  rewrite Hu. unfold get_cart. rewrite Hfind.
  rewrite decide_False by (by intros []).
  cbn -[doc]. eexists. split_and!; [done|done|done| | |done].
  - simpl. by rewrite list_fmap_compose.
  - apply totals_ext. cbn [ui with_ui setLoading setError setCart cart].
    rewrite Hc. fold doc. unfold doc, new_Cart. cbn [cart_items].
    rewrite <-list_fmap_compose.
    apply Forall2_fmap_l, Forall_Forall2_diag, Forall_forall. done.
Qed.


(** X17: without a token in [localStorage] no operation of the provider
    sends a request: [saveCart], [loadSavedCart], [deleteSavedCartById]
    and [fetchSavedCarts] fail locally with the error "Unauthorized: User
    not logged in" and leave the cart, the saved carts and the server as
    they are. *)
Theorem no_token_no_request w :
  token w = None ∨ token w = Some "" →
  (∀ name, cart (ui w) ≠ [] →
     ∃ w', saveCart jwt_verify name w = (Return None, w')
       ∧ error (ui w')
         = Some "Error saving cart: Unauthorized: User not logged in"
       ∧ requests w' = requests w ∧ carts_db w' = carts_db w)
  ∧ (∀ cartId,
     ∃ w', loadSavedCart jwt_verify cartId w = (Return false, w')
       ∧ error (ui w')
         = Some "Error loading saved cart: Unauthorized: User not logged in"
       ∧ cart (ui w') = cart (ui w)
       ∧ requests w' = requests w ∧ carts_db w' = carts_db w)
  ∧ (∀ cartId,
     ∃ w', deleteSavedCartById jwt_verify cartId w = (Return false, w')
       ∧ error (ui w')
         = Some "Error deleting saved cart: Unauthorized: User not logged in"
       ∧ requests w' = requests w ∧ carts_db w' = carts_db w)
  ∧ (currentUser w = true →
     ∃ w', fetchSavedCarts jwt_verify w = (Return (), w')
       ∧ error (ui w')
         = Some "Error fetching saved carts: Unauthorized: User not logged in"
       ∧ savedCarts (ui w') = savedCarts (ui w)
       ∧ requests w' = requests w ∧ carts_db w' = carts_db w).
Proof.
  intros Htok. split_and!.
  - intros name Hcart.
    unfold saveCart, finally, try_catch, saveCartToDB, require_token, get,
      set_ui, throw, mbind, Eff_bind, mret, Eff_ret.
    cbn. destruct (cart (ui w)) as [|item items]; [done|]. cbn.
    destruct Htok as [-> | ->]; cbn; by eexists.
  - intros cartId.
    unfold loadSavedCart, finally, try_catch, getSavedCartById, require_token,
      get, set_ui, throw, mbind, Eff_bind, mret, Eff_ret.
    cbn. destruct Htok as [-> | ->]; cbn; by eexists.
  - intros cartId.
    unfold deleteSavedCartById, finally, try_catch, deleteSavedCart,
      require_token, get, set_ui, throw, mbind, Eff_bind, mret, Eff_ret.
    cbn. destruct Htok as [-> | ->]; cbn; by eexists.
  - intros Hcu.
    unfold fetchSavedCarts, finally, try_catch, getSavedCarts, require_token,
      get, set_ui, throw, mbind, Eff_bind, mret, Eff_ret.
    cbn. rewrite Hcu. cbn. destruct Htok as [-> | ->]; cbn; by eexists.
Qed.

Lemma route_delete_cart_outcome req cartId carts :
  (∃ i old, route_delete_cart jwt_verify req (Some cartId) carts
            = (Message 200 "העגלה נמחקה בהצלחה", delete i carts)
            ∧ findById cartId carts = Some (i, old)
            ∧ @authMiddleware jwt_verify () req = inl (cart_userId old))
  ∨ (∃ s m, route_delete_cart jwt_verify req (Some cartId) carts
            = (Message s m, carts)
            ∧ (s = 401 ∨ s = 403 ∨ s = 404)).
Proof.
  unfold route_delete_cart.
  destruct (authMiddleware jwt_verify req) as [u|r] eqn:Hauth.
  - unfold delete_cart.
    destruct (findById cartId carts) as [[i old]|] eqn:Hfind;
      [|right; eexists _, _; eauto].
    case_decide as Howner; [right; eexists _, _; eauto|].
    left. exists i, old. by rewrite Howner.
  - right. unfold authMiddleware in Hauth.
    destruct (x_auth_token req) as [[|c t]|]; simplify_eq; eauto.
    destruct (jwt_verify _); simplify_eq; eauto.
Qed.

(** X18: [deleteSavedCartById] never throws, ends with [loading] off and
    never touches the local cart.  It returns [true] exactly when the
    server deleted the cart, which it does only for a cart of the user of
    the token; otherwise the collection is unchanged and [error] is
    set. *)
Theorem deleteSavedCartById_outcome cartId w :
  ∃ r w',
    deleteSavedCartById jwt_verify cartId w = (Return r, w')
    ∧ loading (ui w') = false
    ∧ cart (ui w') = cart (ui w)
    ∧ if r
      then ∃ i old,
             findById cartId (carts_db w) = Some (i, old)
             ∧ user_of jwt_verify (token w) = Some (cart_userId old)
             ∧ carts_db w' = delete i (carts_db w)
             ∧ error (ui w') = None
      else carts_db w' = carts_db w ∧ is_Some (error (ui w')).
Proof.
  unfold deleteSavedCartById, finally, try_catch, deleteSavedCart,
    require_token, fetch_delete_cart, message_or_throw, get, set_ui, throw,
    mbind, Eff_bind, mret, Eff_ret.
  cbn -[fetchSavedCarts route_delete_cart].
  destruct (token w) as [[|c t]|] eqn:Htok;
    cbn -[fetchSavedCarts route_delete_cart].
  1,3: exists false; eexists; split; [done|]; simpl; split_and!; try done;
       by eexists.
  match goal with
  | |- context [route_delete_cart ?j ?r ?p ?c] =>
      destruct (route_delete_cart_outcome r cartId c)
        as [(i & old & -> & Hfind & Hauth)|(s & m & -> & Hs)]
  end; cbn -[fetchSavedCarts].
  - match goal with
    | |- context [fetchSavedCarts ?j ?w0] =>
        destruct (fetchSavedCarts_frame w0)
          as (w1 & -> & Hc & Hdb & _ & _ & _ & _)
    end.
    cbn. exists true. eexists. split; [done|]. simpl.
    rewrite Hc, Hdb. simpl. split_and!; try done.
    exists i, old. split_and!; try done.
    unfold authMiddleware in Hauth. simpl in *.
    by destruct (jwt_verify _); simplify_eq.
  - assert ((200 <=? s) && (s <=? 299) = false) as ->.
    { destruct Hs as [->|[->| ->]]; done. }
    cbn. exists false. eexists. split; [done|]. simpl.
    split_and!; try done; by eexists.
Qed.

Lemma route_get_cart_outcome req cartId carts :
  (∃ i doc, route_get_cart jwt_verify req (Some cartId) carts = Json 200 doc
            ∧ findById cartId carts = Some (i, doc)
            ∧ @authMiddleware jwt_verify CartDoc req = inl (cart_userId doc))
  ∨ (∃ s m, route_get_cart jwt_verify req (Some cartId) carts = Message s m
            ∧ (s = 401 ∨ s = 403 ∨ s = 404)).
Proof.
  unfold route_get_cart.
  destruct (authMiddleware jwt_verify req) as [u|r] eqn:Hauth.
  - unfold get_cart.
    destruct (findById cartId carts) as [[i old]|] eqn:Hfind;
      [|right; eexists _, _; eauto].
    case_decide as Howner; [right; eexists _, _; eauto|].
    left. exists i, old. by rewrite Howner.
  - right. unfold authMiddleware in Hauth.
    destruct (x_auth_token req) as [[|c t]|]; simplify_eq; eauto.
    destruct (jwt_verify _); simplify_eq; eauto.
Qed.

(** X19: [loadSavedCart] never throws, ends with [loading] off and never
    changes the server.  It returns [true] only for a cart of the user of
    the token, and the local cart is then the items of that cart (with
    quantities of at least 1 when the stored cart passes the schema);
    otherwise the local cart is kept and [error] is set. *)
Theorem loadSavedCart_outcome cartId w :
  ∃ r w',
    loadSavedCart jwt_verify cartId w = (Return r, w')
    ∧ loading (ui w') = false
    ∧ carts_db w' = carts_db w
    ∧ if r
      then ∃ i doc,
             findById cartId (carts_db w) = Some (i, doc)
             ∧ user_of jwt_verify (token w) = Some (cart_userId doc)
             ∧ cart (ui w') = item_of_stored <$> cart_items doc
             ∧ error (ui w') = None
             ∧ (CartSchema_validate doc = true → quantities_ok (cart (ui w')))
      else cart (ui w') = cart (ui w) ∧ is_Some (error (ui w')).
Proof.
  unfold loadSavedCart, finally, try_catch, getSavedCartById,
    require_token, fetch_get_cart, json_or_throw, get, set_ui, throw,
    mbind, Eff_bind, mret, Eff_ret.
  cbn -[route_get_cart].
  destruct (token w) as [[|c t]|] eqn:Htok; cbn -[route_get_cart].
  1,3: exists false; eexists; split; [done|]; simpl; split_and!; try done;
       by eexists.
  match goal with
  | |- context [route_get_cart ?j ?r ?p ?c] =>
      destruct (route_get_cart_outcome r cartId c)
        as [(i & doc & -> & Hfind & Hauth)|(s & m & -> & Hs)]
  end; cbn.
  - exists true. eexists. split; [done|]. simpl. split_and!; try done.
    exists i, doc. split_and!; try done.
    + unfold authMiddleware in Hauth. simpl in *.
      by destruct (jwt_verify _); simplify_eq.
    + intros Hvalid%CartSchema_validate_quantities.
      unfold quantities_ok. by apply Forall_fmap.
  - exists false. eexists. split; [done|]. simpl.
    split_and!; try done; by eexists.
Qed.
End client_facts.

Lemma save_then_load_witness :
  ∃ doc w1 w2,
    saveCart demo_verify (Some "weekly") (client_world example_cart)
    = (Return (Some doc), w1)
    ∧ carts_db w1 = [doc]
    ∧ loadSavedCart demo_verify (cart_oid doc) w1 = (Return true, w2)
    ∧ cart (ui w2) = (item_of_stored ∘ cast_item) <$> example_cart
    ∧ getSupermarketTotals (ui w2)
      = getSupermarketTotals (provider example_cart)
    ∧ carts_db w2 = carts_db w1.
Proof.
  assert ("good-token" ≠ "") as Htok by discriminate.
  assert (example_cart ≠ []) as Hcart by discriminate.
  assert (Forall (λ c : CartDoc, cart_oid c ≠ 0) []) as Hfresh
    by constructor.
  apply (save_then_load demo_verify (Some "weekly")
           (client_world example_cart) "good-token" "user-1");
    [reflexivity|exact Htok|vm_compute; reflexivity|vm_compute; reflexivity
    |exact Hcart|vm_compute; reflexivity|vm_compute; reflexivity
    |exact Hfresh].
Defined.

Lemma no_token_no_request_witness :
  let w := {| ui := provider example_cart; currentUser := true;
              token := None; clock := 1700;
              carts_db := demo_carts; requests := [] |} in
  ∃ w', saveCart demo_verify None w = (Return None, w')
    ∧ error (ui w')
      = Some "Error saving cart: Unauthorized: User not logged in"
    ∧ requests w' = [] ∧ carts_db w' = demo_carts.
Proof.
  intros w.
  assert (cart (ui w) ≠ []) as Hcart by discriminate.
  pose proof (no_token_no_request demo_verify w (or_introl eq_refl))
    as [Hsave _].
  exact (Hsave None Hcart).
Defined.

(** C9, a cart with two lines of one id.  A line of a saved cart carries
    its id as the string the schema stores, which [addToCart] does not
    take for the number of the product.  Starting from the empty cart, the
    product 1 is added and the cart is saved and loaded: it has one line,
    of id ["1"].  The product is added again and makes a second line, the
    cart is saved again, and the cart that is loaded then, by
    [loadSavedCart] or by the button of SavedCartsPage, has two lines of
    id ["1"]. *)
Lemma load_breaks_distinct_ids :
  let bread :=
    {| id := 1; name := "bread"; category := "bakery";
       prices := {[ "x" := 6 ]}; unit := "unit"; popularity := 0;
       rating := 0; ratingCount := 0 |} in
  cart (ui (client_world [])) = []
  ∧ ∃ doc1 w1 w2 doc2 w3 w4,
      saveCart demo_verify (Some "a")
        (with_ui (addToCart bread None) (client_world []))
      = (Return (Some doc1), w1)
      ∧ loadSavedCart demo_verify (cart_oid doc1) w1 = (Return true, w2)
      ∧ cart_ids (cart (ui w2)) = [StrId "1"]
      ∧ saveCart demo_verify (Some "b") (with_ui (addToCart bread None) w2)
        = (Return (Some doc2), w3)
      ∧ cart_ids (cart (ui w3)) = [StrId "1"; NumId 1]
      ∧ loadSavedCart demo_verify (cart_oid doc2) w3 = (Return true, w4)
      ∧ cart_ids (cart (ui w4)) = [StrId "1"; StrId "1"]
      ∧ cart_ids (cart (loadSelectedCart doc2 (ui w3)))
        = [StrId "1"; StrId "1"]
      ∧ ¬ NoDup (cart_ids (cart (ui w4))).
Proof.
  intros bread. split; [reflexivity|]. eexists _, _, _, _, _, _.
  split; [vm_compute; reflexivity|].
  split; [vm_compute; reflexivity|].
  split; [vm_compute; reflexivity|].
  split; [vm_compute; reflexivity|].
  split; [vm_compute; reflexivity|].
  split; [vm_compute; reflexivity|].
  split; [vm_compute; reflexivity|].
  split; [vm_compute; reflexivity|].
  vm_compute cart_ids. intros Hnd. apply NoDup_cons in Hnd as [Hin _].
  apply Hin. by left.
Qed.

(** ** The list of saved carts *)

Lemma Array_sort_sorted_id {A} (comparefn : A → A → JS.number) l :
  StronglySorted (keeps_before comparefn) l → JS.Array_sort comparefn l = l.
Proof.
  induction 1 as [|x l _ IH Hx]; [done|].
  rewrite Array_sort_cons, IH. destruct l as [|y l]; [done|].
  apply Forall_cons in Hx as [Hxy _]. simpl. by rewrite Hxy.
Qed.

Lemma keeps_before_created a b :
  keeps_before compare_created a b ↔ newest_first a b.
Proof.
  unfold keeps_before, compare_created, newest_first. simpl.
  rewrite Z.ltb_ge. lia.
Qed.

Section saved_listing.
Variable jwt_verify : string → option string.

Lemma route_get_carts_answer tok b carts u :
  user_of jwt_verify tok = Some u →
  route_get_carts jwt_verify {| x_auth_token := tok; body := b |} carts
  = Json 200 (merge_sort newest_first (carts_of u carts)).
Proof.
  intros Hu. unfold route_get_carts.
  by rewrite (authMiddleware_user jwt_verify (A:=list CartDoc) tok b u Hu).
Qed.

(** X20: with a token that verifies, the list of saved carts shown is the
    list the server answered, in the server's order: the sort of
    SavedCartsPage (most recent first, stable) changes nothing in it, and
    [fetchSavedCarts] of the provider stores it as it is, clears [error]
    and sends exactly one request. *)
Theorem saved_carts_listing w u :
  user_of jwt_verify (token w) = Some u →
  ∃ l,
    route_get_carts jwt_verify
      {| x_auth_token := token w; body := no_body |} (carts_db w) = Json 200 l
    ∧ JS.Array_sort compare_created l = l
    ∧ (∃ w', page_fetchSavedCarts jwt_verify w = (Return (Some l), w')
             ∧ carts_db w' = carts_db w)
    ∧ (currentUser w = true →
       ∃ w', fetchSavedCarts jwt_verify w = (Return (), w')
             ∧ savedCarts (ui w') = l ∧ error (ui w') = None
             ∧ loading (ui w') = false
             ∧ requests w' = "GET /api/cart" :: requests w).
Proof.
  intros Hu. exists (merge_sort newest_first (carts_of u (carts_db w))).
  assert (∃ c t, token w = Some (String c t)) as (c & t & Htok).
  { unfold user_of in Hu. destruct (token w) as [[|c t]|]; try done. eauto. }
  split_and!.
  - by apply route_get_carts_answer.
  - apply Array_sort_sorted_id.
    eapply StronglySorted_weaken; [|apply (StronglySorted_merge_sort _)].
    intros a b _ _. apply keeps_before_created.
  - unfold page_fetchSavedCarts, try_catch, getSavedCarts, require_token,
      fetch_get_carts, json_or_throw, get, throw, mbind, Eff_bind, mret, Eff_ret.
    cbn -[route_get_carts]. rewrite Htok. cbn -[route_get_carts].
    rewrite <-Htok, (route_get_carts_answer _ _ _ u Hu). cbn.
    rewrite Array_sort_sorted_id; [by eexists|].
    eapply StronglySorted_weaken; [|apply (StronglySorted_merge_sort _)].
    intros a b _ _. apply keeps_before_created.
  - intros Hcu.
    unfold fetchSavedCarts, finally, try_catch, getSavedCarts, require_token,
      fetch_get_carts, json_or_throw, get, set_ui, throw,
      mbind, Eff_bind, mret, Eff_ret.
    cbn -[route_get_carts]. rewrite Hcu. cbn -[route_get_carts].
    rewrite Htok. cbn -[route_get_carts].
    rewrite <-Htok, (route_get_carts_answer _ _ _ u Hu). cbn.
    by eexists.
Qed.
End saved_listing.

Lemma saved_carts_listing_witness :
  user_of demo_verify (token (client_world [])) = Some "user-1"
  ∧ ∃ l,
      route_get_carts demo_verify
        {| x_auth_token := Some "good-token"; body := no_body |} demo_carts
      = Json 200 l
      ∧ JS.Array_sort compare_created l = l
      ∧ l = [stored_cart 2 "user-1" 30 5; stored_cart 0 "user-1" 10 2].
Proof.
  split; [reflexivity|].
  destruct (saved_carts_listing demo_verify
              (set_carts_db demo_carts (client_world [])) "user-1" eq_refl)
    as (l & Hget & Hsort & _).
  exists l. split_and!; [exact Hget|exact Hsort|].
  vm_compute in Hget. by injection Hget as <-.
Defined.

(** * Further properties of the ranking *)

(** ** [parseInt] reads back the decimal form of an integer *)






(** [trim] and [parseInt] strip a no-break space (U+00A0, the bytes 194
    160), an ideographic space (U+3000, the bytes 227 128 128) and a byte
    order mark (U+FEFF, the bytes 239 187 191).  A zero-width space
    (U+200B, the bytes 226 128 139) is not white space. *)
Lemma unicode_white_space_examples :
  trim (String "194" (String "160"
          ("milk" +:+ String "227" (String "128" (String "128" "")))))
  = "milk"
  ∧ JS.parseInt
      (Some (String "239" (String "187" (String "191"
               (String "194" (String "160" "7"))))))
    = JS.Fin 7
  ∧ trim (String "226" (String "128" (String "139" "")))
    = String "226" (String "128" (String "139" ""))
  ∧ JS.parseInt (Some (String "226" (String "128" (String "139" "7"))))
    = JS.NaN.
Proof. split_and!; reflexivity. Qed.








(** ** The in-memory sort of the controller *)

(** X29: under ["cheapest"] and ["highest different"] the controller
    answers with the products in the order in which [Product.find()]
    returned them, cut by [slice(0, limit)], whatever their prices are:
    both comparators answer [NaN] for every pair of products, which
    [Array.prototype.sort] reads as [+0], so the sort moves no product.
    With a limit that is not below the number of products the answer is
    the fetched list itself. *)
Theorem controller_keeps_fetch_order store db q :
  criteria_of q = "cheapest" ∨ criteria_of q = "highest different" →
  getTopProducts store (Some db) q
  = Json 200 (JS.Array_slice0 (limit_of q) db)
  ∧ (∀ n, limit_of q = JS.Fin n → 0 ≤ n →
       getTopProducts store (Some db) q = Json 200 (take (Z.to_nat n) db))
  ∧ (∀ n, limit_of q = JS.Fin n → Z.of_nat (length db) ≤ n →
       getTopProducts store (Some db) q = Json 200 db)
  ∧ (∀ a b, compare_cheapest a b = JS.NaN
            ∧ compare_highest_different a b = JS.NaN).
Proof.
  intros Hc.
  assert (getTopProducts store (Some db) q
          = Json 200 (JS.Array_slice0 (limit_of q) db)) as Hanswer.
  { unfold getTopProducts.
    destruct Hc as [-> | ->];
      [by rewrite top_products_cheapest
      |by rewrite top_products_highest_different]. }
  split_and!; [done| | |done].
  - intros n Hn Hpos. rewrite Hanswer, Hn. f_equal.
    unfold JS.Array_slice0, JS.slice_end.
    destruct (Z.ltb_spec n 0); [lia|].
    destruct (Z.min_spec n (Z.of_nat (length db))) as [[_ ->]|[Hle ->]];
      [done|].
    rewrite Nat2Z.id, !take_ge; [done|lia|lia].
  - intros n Hn Hle. by rewrite Hanswer, Hn, Array_slice0_all.
Qed.

Lemma controller_keeps_fetch_order_witness :
  (criteria_of (query "highest different" "2") = "cheapest"
   ∨ criteria_of (query "highest different" "2") = "highest different")
  ∧ limit_of (query "highest different" "2") = JS.Fin 2
  ∧ getTopProducts insertion_order_store (Some [prod_B; wide_Z; prod_A])
      (query "highest different" "2")
    = Json 200 [prod_B; wide_Z]
  ∧ getTopProducts insertion_order_store (Some [prod_B; wide_Z; prod_A])
      (query "highest different" "2")
    = Json 200 (take (Z.to_nat 2) [prod_B; wide_Z; prod_A]).
Proof.
  assert (criteria_of (query "highest different" "2") = "cheapest"
          ∨ criteria_of (query "highest different" "2") = "highest different")
    as Hc by (right; reflexivity).
  assert (limit_of (query "highest different" "2") = JS.Fin 2) as Hl
    by reflexivity.
  destruct (controller_keeps_fetch_order insertion_order_store
              [prod_B; wide_Z; prod_A] (query "highest different" "2") Hc)
    as (_ & Htake & _).
  split_and!; [exact Hc|exact Hl|reflexivity|].
  apply (Htake 2 Hl). lia.
Defined.

(** ** The local ranking of the provider *)

Lemma Array_slice0_zero {A} (l : list A) : JS.Array_slice0 (JS.Fin 0) l = [].
Proof.
  unfold JS.Array_slice0, JS.slice_end. simpl.
  by rewrite Z.min_l, take_0 by lia.
Qed.

Lemma provider_local fetchTopProducts amount ctx :
  products ctx ≠ [] →
  provider_getTopProducts fetchTopProducts (Some "cheapest") (Some amount) ctx
  = (JS.Array_slice0 amount
       (JS.Array_sort sortFunctions_cheapest (products ctx)),
     {| products := products ctx; products_loading := false;
        products_error := products_error ctx |}).
Proof.
  intros Hp. unfold provider_getTopProducts. simpl default.
  by destruct (products ctx) as [|p l] eqn:Hl.
Qed.

Lemma local_min_price_lowest p m :
  priced p → local_min_price p = JS.Fin m ↔ lowest_price p m.
Proof.
  intros (m' & Hm' & Hlowest)%local_min_price_priced. rewrite Hm'. split.
  - by intros [= <-].
  - intros Hm. by rewrite (lowest_price_unique _ _ _ Hm Hlowest).
Qed.

(** X22: with a product list of its own, the provider ranks by
    ["cheapest"] itself, without a request.  The list it returns is the
    first [n] elements ([slice(0, n)]) of a reordering of its products in
    which the products with prices come first, in ascending order of their
    minimum price, the products with an empty price object come last, and
    products with the same minimum price keep the order they have in the
    list; for a positive [n] these are [min n (number of products)]
    elements and for [n = 0] none.  The state keeps the products and the
    error and ends with [loading] off. *)
Theorem provider_ranks_cheapest fetchTopProducts n ctx :
  products ctx ≠ [] →
  let answer :=
    provider_getTopProducts fetchTopProducts (Some "cheapest")
      (Some (JS.Fin n)) ctx in
  ∃ ranked l1 l2,
    answer.1 = JS.Array_slice0 (JS.Fin n) ranked
    ∧ ranked ≡ₚ products ctx
    ∧ ranked = l1 ++ l2 ∧ Forall priced l1 ∧ Forall unpriced l2
    ∧ StronglySorted cheaper_or_equal l1
    ∧ (∀ p m, priced p → local_min_price p = JS.Fin m ↔ lowest_price p m)
    ∧ (∀ k, filter (λ p, local_min_price p = k) ranked
            = filter (λ p, local_min_price p = k) (products ctx))
    ∧ (0 < n →
       Z.of_nat (length answer.1) = Z.min n (Z.of_nat (length (products ctx))))
    ∧ (n = 0 → answer.1 = [])
    ∧ answer.2 = {| products := products ctx; products_loading := false;
                    products_error := products_error ctx |}.
Proof.
  intros Hp answer. subst answer. rewrite provider_local by done.
  cbn [fst snd].
  destruct (StronglySorted_split
              (λ a b, num_le (local_min_price a) (local_min_price b)) unpriced
              (JS.Array_sort sortFunctions_cheapest (products ctx)))
    as (l1 & l2 & Hranked & H1 & H2).
  { intros x y Hx Hy. rewrite (local_min_price_unpriced x Hx).
    destruct (local_min_price_priced y Hy) as (m & -> & _). simpl. tauto. }
  { apply ranked_cheapest_sorted. }
  exists (JS.Array_sort sortFunctions_cheapest (products ctx)), l1, l2.
  split_and!; [done|apply Array_sort_perm|done..| | | | | |done].
  - pose proof (ranked_cheapest_sorted (products ctx)) as Hsorted.
    rewrite Hranked in Hsorted. apply StronglySorted_app_1_l in Hsorted.
    eapply StronglySorted_weaken; [|exact Hsorted].
    intros a b Ha Hb. rewrite Forall_forall in H1.
    apply num_le_cheaper_or_equal; by apply H1.
  - intros p m. apply local_min_price_lowest.
  - intros k. apply Array_sort_filter. intros x y Hx Hy.
    unfold sortFunctions_cheapest. rewrite Hx, Hy. apply gt0_sub_self.
  - intros Hn. by rewrite Array_slice0_length_pos, Array_sort_length.
  - intros ->. apply Array_slice0_zero.
Qed.

Lemma provider_ranks_cheapest_witness :
  let ctx := {| products := [prod_A; prod_C; prod_B; wide_Z];
                products_loading := true; products_error := Some "old" |} in
  products ctx ≠ []
  ∧ provider_getTopProducts (λ _ _, Throw "offline") (Some "cheapest")
      (Some (JS.Fin 3)) ctx
    = ([prod_B; prod_A; wide_Z],
       {| products := [prod_A; prod_C; prod_B; wide_Z];
          products_loading := false; products_error := Some "old" |})
  ∧ (provider_getTopProducts (λ _ _, Throw "offline") (Some "cheapest")
       (Some (JS.Fin 9)) ctx).1
    = [prod_B; prod_A; wide_Z; prod_C]
  ∧ Z.of_nat (length (provider_getTopProducts (λ _ _, Throw "offline")
                        (Some "cheapest") (Some (JS.Fin 3)) ctx).1)
    = Z.min 3 (Z.of_nat (length (products ctx))).
Proof.
  intros ctx.
  assert (products ctx ≠ []) as Hp by discriminate.
  assert (0 < 3) as Hn by lia.
  pose proof (provider_ranks_cheapest (λ _ _, Throw "offline") 3 ctx Hp)
    as Hlocal.
  cbv beta zeta in Hlocal.
  destruct Hlocal as (ranked & l1 & l2 & _ & _ & _ & _ & _ & _ & _ & _
                      & Hlen & _).
  split_and!; [exact Hp|vm_compute; reflexivity|vm_compute; reflexivity|].
  exact (Hlen Hn).
Defined.

(** ** Writing products *)

Lemma find_product_Some oid rows i row :
  find_product oid rows = Some (i, row) →
  rows !! i = Some row ∧ row_oid row = oid.
Proof. unfold find_product. intros (? & ? & _)%list_find_Some. done. Qed.


Lemma createProduct_answer now b rows :
  createProduct now b rows
  = (Message (if truthy_string (pb_name b) && truthy_string (pb_category b)
                 && bool_decide (is_Some (pb_prices b))
              then 500 else 400)
       (if truthy_string (pb_name b) && truthy_string (pb_category b)
           && bool_decide (is_Some (pb_prices b))
        then "שגיאת שרת ביצירת מוצר" else "נדרשים שם, קטגוריה ומחירים"),
     rows).
Proof.
  unfold createProduct.
  destruct (truthy_string (pb_name b)), (truthy_string (pb_category b)),
    (bool_decide (is_Some (pb_prices b))); reflexivity.
Qed.

Lemma updateProduct_cases now param b rows :
  (∃ msg s, (s = 404 ∨ s = 500)
     ∧ updateProduct now param b rows = (Message s msg, rows))
  ∨ (∃ oid i old,
       param = Some oid
       ∧ rows !! i = Some old ∧ row_oid old = oid
       ∧ required (name (updated_product b (row_product old))) = true
       ∧ required (category (updated_product b (row_product old))) = true
       ∧ updateProduct now param b rows
         = (Json 200
              {| row_oid := oid;
                 row_description :=
                   match pb_description b with
                   | Some d => Some (trim d)
                   | None => row_description old
                   end;
                 row_updatedAt := now;
                 row_product := updated_product b (row_product old) |},
            <[i := {| row_oid := oid;
                      row_description :=
                        match pb_description b with
                        | Some d => Some (trim d)
                        | None => row_description old
                        end;
                      row_updatedAt := now;
                      row_product := updated_product b (row_product old) |}]>
              rows)).
Proof.
  unfold updateProduct. destruct param as [oid|]; [|left; eauto].
  destruct (find_product oid rows) as [[i old]|] eqn:Hfind; [|left; eauto].
  apply find_product_Some in Hfind as [Hi Hoid]. cbn [row_product].
  destruct (required (name _)) eqn:Hname; [|left; eauto].
  destruct (required (category _)) eqn:Hcat; [|left; eauto].
  right. exists oid, i, old. rewrite Hoid. by split_and!.
Qed.

Lemma deleteProduct_cases param rows :
  (∃ msg s, (s = 404 ∨ s = 500)
     ∧ deleteProduct param rows = (Message s msg, rows))
  ∨ (∃ oid i old,
       param = Some oid ∧ rows !! i = Some old ∧ row_oid old = oid
       ∧ deleteProduct param rows
         = (Message 200 "המוצר נמחק בהצלחה", delete i rows)).
Proof.
  unfold deleteProduct. destruct param as [oid|]; [|left; eauto].
  destruct (find_product oid rows) as [[i old]|] eqn:Hfind; [|left; eauto].
  apply find_product_Some in Hfind as [Hi Hoid].
  right. by exists oid, i, old.
Qed.

Section product_routes_facts.
Variable jwt_decode : string → option (string * bool).

Lemma admin_gate_open {A} tok :
  admin_gate jwt_decode (A:=A) tok = None →
  ∃ t u, tok = Some t ∧ t ≠ "" ∧ jwt_decode t = Some (u, true).
Proof.
  unfold admin_gate. destruct tok as [[|a t]|]; [done| |done].
  destruct (jwt_decode _) as [[u [|]]|] eqn:Hdec; [|done..].
  intros _. by exists (String a t), u.
Qed.

(** X24: the three routes that write products answer [401] to a request
    without a token, with an empty token or with a token that does not
    verify, and [403] to a verified token whose payload does not carry a
    true [isAdmin]; in both cases the collection is left as it was,
    whatever the request asks for. *)
Theorem product_router_admin_only now tok call rows :
  (∀ t u, tok = Some t → t ≠ "" → jwt_decode t ≠ Some (u, true)) →
  ((product_router jwt_decode now tok call rows).1 = 401
   ∨ (product_router jwt_decode now tok call rows).1 = 403)
  ∧ (product_router jwt_decode now tok call rows).2 = rows
  ∧ ((product_router jwt_decode now tok call rows).1 = 403 ↔
     ∃ t u, tok = Some t ∧ t ≠ "" ∧ jwt_decode t = Some (u, false)).
Proof.
  intros Hnot. unfold product_router, admin_gate.
  destruct tok as [[|a t]|]; simpl.
  - split_and!; [by left|done|]. split; [done|].
    intros (? & ? & ? & ? & _); by simplify_eq.
  - destruct (jwt_decode (String a t)) as [[u [|]]|] eqn:Hdec; simpl.
    + by destruct (Hnot (String a t) u).
    + split_and!; [by right|done|]. split; [|done].
      intros _. by exists (String a t), u.
    + split_and!; [by left|done|]. split; [done|].
      intros (? & ? & ? & _ & ?); simplify_eq.
  - split_and!; [by left|done|]. split; [done|].
    by intros (? & ? & ? & _).
Qed.

(** X25: [POST /api/products] never stores a product.  [createProduct]
    builds the document without the [id] that [ProductSchema] requires, so
    [save] rejects it: an admin who sends a name, a category and prices is
    answered [500], an admin who leaves one of them out (or sends an empty
    name or category) [400], anyone else [401] or [403]; the collection is
    the same afterwards in every case. *)
Theorem createProduct_never_stores now tok b rows :
  (product_router jwt_decode now tok (CreateProduct b) rows).2 = rows
  ∧ (product_router jwt_decode now tok (CreateProduct b) rows).1
    ∈ [400; 401; 403; 500]
  ∧ (admin_gate jwt_decode (A:=ProductRow) tok = None →
     (product_router jwt_decode now tok (CreateProduct b) rows).1
     = if truthy_string (pb_name b) && truthy_string (pb_category b)
          && bool_decide (is_Some (pb_prices b))
       then 500 else 400).
Proof.
  unfold product_router.
  destruct (admin_gate jwt_decode tok) as [denied|] eqn:Hgate.
  - split_and!; [done| |done]. revert Hgate. unfold admin_gate.
    destruct tok as [[|a t]|]; [intros [= <-]; set_solver|
                                |intros [= <-]; set_solver].
    destruct (jwt_decode _) as [[u [|]]|]; [done|intros [= <-]; set_solver..].
  - rewrite createProduct_answer. cbn [status fst snd].
    split_and!; [done| |done].
    destruct (_ && _); set_solver.
Qed.

(** X26: the routes that write products keep the schema's requirement on
    the stored products: if every stored product has a non-empty [name] and
    [category], so has every product after any request, from anyone. *)
Theorem product_router_keeps_schema now tok call rows :
  Forall (λ r, required (name (row_product r)) = true
               ∧ required (category (row_product r)) = true) rows →
  Forall (λ r, required (name (row_product r)) = true
               ∧ required (category (row_product r)) = true)
    (product_router jwt_decode now tok call rows).2.
Proof.
  intros Hrows. unfold product_router.
  destruct (admin_gate jwt_decode tok) as [denied|]; [done|].
  destruct call as [b|param b|param].
  - by rewrite createProduct_answer.
  - destruct (updateProduct_cases now param b rows)
      as [(msg & s & _ & ->)|(oid & i & old & _ & _ & _ & Hn & Hc & ->)];
      [done|].
    cbn [snd]. by apply Forall_insert.
  - destruct (deleteProduct_cases param rows)
      as [(msg & s & _ & ->)|(oid & i & old & _ & _ & _ & ->)]; [done|].
    cbn [snd]. by apply Forall_delete.
Qed.

End product_routes_facts.

(** X27: [updateProduct] never changes which products there are: every
    stored product keeps its [_id], its [id] and its [ratingCount], the
    number of products stays, and a product other than the one addressed is
    left as it is.  The answer is [200], [404] or [500], and only a [200]
    changes anything. *)
Theorem updateProduct_keeps_identity now param b rows :
  row_oid <$> (updateProduct now param b rows).2 = row_oid <$> rows
  ∧ (id ∘ row_product) <$> (updateProduct now param b rows).2
    = (id ∘ row_product) <$> rows
  ∧ (ratingCount ∘ row_product) <$> (updateProduct now param b rows).2
    = (ratingCount ∘ row_product) <$> rows
  ∧ (∀ j row, rows !! j = Some row → Some (row_oid row) ≠ param →
       (updateProduct now param b rows).2 !! j = Some row)
  ∧ status (updateProduct now param b rows).1 ∈ [200; 404; 500]
  ∧ (status (updateProduct now param b rows).1 ≠ 200 →
     (updateProduct now param b rows).2 = rows).
Proof.
  destruct (updateProduct_cases now param b rows)
    as [(msg & s & Hs & ->)|(oid & i & old & -> & Hi & Hoid & _ & _ & ->)];
    cbn [fst snd status].
  - split_and!; try done. destruct Hs as [->| ->]; set_solver.
  - split_and!.
    + rewrite list_fmap_insert. apply list_insert_id.
      by rewrite list_lookup_fmap, Hi; simpl; rewrite Hoid.
    + rewrite list_fmap_insert. apply list_insert_id.
      by rewrite list_lookup_fmap, Hi.
    + rewrite list_fmap_insert. apply list_insert_id.
      by rewrite list_lookup_fmap, Hi.
    + intros j row Hj Hne. rewrite list_lookup_insert_ne; [done|].
      intros <-. by simplify_eq.
    + set_solver.
    + done.
Qed.


Lemma product_router_admin_only_witness :
  product_router demo_decode 9 (Some "good-token") (DeleteProduct (Some 0))
    demo_rows
  = (403, demo_rows).
Proof.
  assert (∀ t u, Some "good-token" = Some t → t ≠ "" →
                 demo_decode t ≠ Some (u, true)) as Hcustomer.
  { intros t u [= <-] _. vm_compute. discriminate. }
  pose proof (product_router_admin_only demo_decode 9 (Some "good-token")
                (DeleteProduct (Some 0)) demo_rows Hcustomer)
    as (_ & Hrows & Hforbidden).
  apply injective_projections; [|exact Hrows].
  apply Hforbidden. exists "good-token", "user-1".
  split_and!; [reflexivity|discriminate|vm_compute; reflexivity].
Defined.

Lemma createProduct_never_stores_witness :
  product_router demo_decode 9 (Some "admin-token")
    (CreateProduct {| pb_name := Some "rye"; pb_description := None;
                      pb_category := Some "bakery";
                      pb_prices := Some {[ "x" := 7 ]}; pb_unit := None;
                      pb_popularity := None; pb_rating := None |})
    demo_rows
  = (500, demo_rows).
Proof.
  pose proof (createProduct_never_stores demo_decode 9 (Some "admin-token")
                {| pb_name := Some "rye"; pb_description := None;
                   pb_category := Some "bakery";
                   pb_prices := Some {[ "x" := 7 ]}; pb_unit := None;
                   pb_popularity := None; pb_rating := None |} demo_rows)
    as (Hrows & _ & Hstatus).
  apply injective_projections; [|exact Hrows].
  etrans; [apply Hstatus; vm_compute; reflexivity|vm_compute; reflexivity].
Defined.

Lemma updateProduct_keeps_identity_witness :
  let b := {| pb_name := Some "rye"; pb_description := Some " dark ";
              pb_category := None; pb_prices := None; pb_unit := None;
              pb_popularity := Some 4; pb_rating := None |} in
  row_oid <$> (updateProduct 9 (Some 1) b demo_rows).2 = [0; 1]
  ∧ (updateProduct 9 (Some 1) b demo_rows).2 !! 0%nat
    = Some {| row_oid := 0; row_description := None; row_updatedAt := 5;
              row_product := prod_A |}.
Proof.
  intros b.
  assert (Some 0 ≠ Some 1) as Hother by discriminate.
  pose proof (updateProduct_keeps_identity 9 (Some 1) b demo_rows)
    as (Hoid & _ & _ & Hrest & _).
  split; [exact Hoid|].
  exact (Hrest 0%nat _ eq_refl Hother).
Defined.

Lemma product_router_keeps_schema_witness :
  Forall (λ r, required (name (row_product r)) = true
               ∧ required (category (row_product r)) = true)
    (product_router demo_decode 9 (Some "admin-token")
       (UpdateProduct (Some 1)
          {| pb_name := Some "rye"; pb_description := None;
             pb_category := Some "  "; pb_prices := None; pb_unit := None;
             pb_popularity := None; pb_rating := None |})
       demo_rows).2.
Proof.
  assert (Forall (λ r, required (name (row_product r)) = true
                       ∧ required (category (row_product r)) = true)
            demo_rows) as Hrows
    by (repeat constructor; vm_compute; reflexivity).
  exact (product_router_keeps_schema demo_decode 9 (Some "admin-token") _
           demo_rows Hrows).
Defined.

